(** * Camera geometry utilities: a shallow embedding of [camera_utils.py]

    The module is numeric Python over numpy, OpenCV and scipy.  The embedding
    follows the source function by function:

    - float64 scalars are idealised as real numbers ([R]); the only
      non-finite value that the modelled paths can produce is [nan], which
      is written [None] in the type [option R] wherever the source can
      meet it (median of an empty slice, [0/0], [arccos] out of range);
    - Python integers are [Z], sizes and indices are [nat];
    - a Python exception is the [Raise] branch of [result];
    - an attribute that the source tests against [None] is an [option];
    - the source is Python 2: [/] between two numpy integers is floor
      division, so an intrinsics object remembers whether its calibration
      matrix had an integer dtype;
    - 3x3, 3x4 and 4x4 matrices are tuples of rows;
    - a numpy n-d array is its shape together with its element access;
    - OpenCV routines are parameters of a [Section]. *)

From Stdlib Require Import Reals Lra Lia List ZArith Bool.
Import ListNotations.
Local Open Scope R_scope.

(** ** Exceptions *)

Inductive exn : Set :=
| AssertionError
| ValueError
| TypeError
| IndexError.

Inductive result (A : Type) : Type :=
| Ok (a : A)
| Raise (e : exn).
Arguments Ok {A} a.
Arguments Raise {A} e.

Definition bind {A B : Type} (m : result A) (k : A -> result B) : result B :=
  match m with
  | Ok a => k a
  | Raise e => Raise e
  end.

Notation "x <- m ;; k" := (bind m (fun x => k))
  (at level 61, m at next level, right associativity).

(** Reading a numeric attribute that may hold [None]: arithmetic on [None]
    raises [TypeError]. *)
Definition num (a : option R) : result R :=
  match a with
  | Some x => Ok x
  | None => Raise TypeError
  end.

(** ** Comparisons on floats, as booleans *)

Definition Rleb (x y : R) : bool := if Rle_dec x y then true else false.
Definition Rltb (x y : R) : bool := if Rlt_dec x y then true else false.

(** A comparison with [nan] on either side is [False]. *)
Definition nan_ltb (x y : option R) : bool :=
  match x, y with
  | Some a, Some b => Rltb a b
  | _, _ => false
  end.
Definition nan_leb (x y : option R) : bool :=
  match x, y with
  | Some a, Some b => Rleb a b
  | _, _ => false
  end.

(** Python's [int(x)] on a float: truncation towards zero. *)
Definition py_int (x : R) : Z :=
  if Rle_dec 0 x then Int_part x else (- Int_part (- x))%Z.

(** ** Small fixed-size linear algebra (numpy.matlib matrices) *)

Module Mat.

Definition vec3 : Type := R * R * R.
Definition vec4 : Type := R * R * R * R.
Definition mat3 : Type := vec3 * vec3 * vec3.
Definition mat34 : Type := vec4 * vec4 * vec4.
Definition mat4 : Type := vec4 * vec4 * vec4 * vec4.

Inductive ix3 : Set := I0 | I1 | I2.

Definition get3 (v : vec3) (i : ix3) : R :=
  let '(a, b, c) := v in
  match i with I0 => a | I1 => b | I2 => c end.

Definition row3 (M : mat3) (i : ix3) : vec3 :=
  let '(r0, r1, r2) := M in
  match i with I0 => r0 | I1 => r1 | I2 => r2 end.

Definition mget (M : mat3) (i j : ix3) : R := get3 (row3 M i) j.

(** [M[:,j]] *)
Definition col3 (M : mat3) (j : ix3) : vec3 :=
  (mget M I0 j, mget M I1 j, mget M I2 j).

Definition sum3 (f : ix3 -> R) : R := f I0 + f I1 + f I2.

Definition zeros3 : vec3 := (0, 0, 0).
Definition eye3 : mat3 := ((1, 0, 0), (0, 1, 0), (0, 0, 1)).

Definition dot3 (u v : vec3) : R :=
  let '(a, b, c) := u in
  let '(x, y, z) := v in
  a * x + b * y + c * z.

Definition dot4 (u v : vec4) : R :=
  let '(a, b, c, d) := u in
  let '(x, y, z, w) := v in
  a * x + b * y + c * z + d * w.

Definition sub3 (u v : vec3) : vec3 :=
  let '(a, b, c) := u in
  let '(x, y, z) := v in
  (a - x, b - y, c - z).

Definition add3 (u v : vec3) : vec3 :=
  let '(a, b, c) := u in
  let '(x, y, z) := v in
  (a + x, b + y, c + z).

(** [M.T] *)
Definition transpose3 (M : mat3) : mat3 := (col3 M I0, col3 M I1, col3 M I2).

(** [M * v] for a column vector [v] *)
Definition mvmul3 (M : mat3) (v : vec3) : vec3 :=
  let '(r0, r1, r2) := M in (dot3 r0 v, dot3 r1 v, dot3 r2 v).

(** [A * B] on numpy matrices is the matrix product *)
Definition mmul3 (A B : mat3) : mat3 :=
  let c0 := col3 B I0 in
  let c1 := col3 B I1 in
  let c2 := col3 B I2 in
  let '(r0, r1, r2) := A in
  ((dot3 r0 c0, dot3 r0 c1, dot3 r0 c2),
   (dot3 r1 c0, dot3 r1 c1, dot3 r1 c2),
   (dot3 r2 c0, dot3 r2 c1, dot3 r2 c2)).

(** columns of a 3x4 matrix *)
Definition cols34 (B : mat34) : vec3 * vec3 * vec3 * vec3 :=
  let '((b00, b01, b02, b03), (b10, b11, b12, b13), (b20, b21, b22, b23)) := B in
  ((b00, b10, b20), (b01, b11, b21), (b02, b12, b22), (b03, b13, b23)).

(** 3x3 times 3x4 *)
Definition mmul3_34 (A : mat3) (B : mat34) : mat34 :=
  let '(c0, c1, c2, c3) := cols34 B in
  let '(r0, r1, r2) := A in
  ((dot3 r0 c0, dot3 r0 c1, dot3 r0 c2, dot3 r0 c3),
   (dot3 r1 c0, dot3 r1 c1, dot3 r1 c2, dot3 r1 c3),
   (dot3 r2 c0, dot3 r2 c1, dot3 r2 c2, dot3 r2 c3)).

(** 3x4 matrix applied to a homogeneous 4-vector *)
Definition mvmul34 (P : mat34) (X : vec4) : vec3 :=
  let '(r0, r1, r2) := P in (dot4 r0 X, dot4 r1 X, dot4 r2 X).

(** [M[:3]]: the first three rows of a 4x4 matrix *)
Definition top3 (M : mat4) : mat34 :=
  let '(r0, r1, r2, _) := M in (r0, r1, r2).

(** [M[:3,:3]] *)
Definition top3x3 (M : mat4) : mat3 :=
  let '((a00, a01, a02, _), (a10, a11, a12, _), (a20, a21, a22, _), _) := M in
  ((a00, a01, a02), (a10, a11, a12), (a20, a21, a22)).

End Mat.
Import Mat.

(** ** The numpy operations the module uses *)

Module np.

(** [np.arange(0, n)], as floats *)
Definition arange (n : nat) : list R := map INR (seq 0 n).

(** Keep one element, drop the next [k], and so on; [c] elements are still
    to be dropped before the next one is kept. *)
Fixpoint take_every {A : Type} (k c : nat) (l : list A) : list A :=
  match l with
  | [] => []
  | x :: l' =>
      match c with
      | O => x :: take_every k k l'
      | S c' => take_every k c' l'
      end
  end.

(** The extended slice [l[::step]]: a zero step raises [ValueError], a
    negative one walks the sequence backwards from its last element. *)
Definition slice_step {A : Type} (step : Z) (l : list A) : result (list A) :=
  match step with
  | Z0 => Raise ValueError
  | Zpos p => Ok (take_every (Pos.to_nat p - 1) 0 l)
  | Zneg p => Ok (take_every (Pos.to_nat p - 1) 0 (rev l))
  end.

(** An n-d array: its [shape] and its element at a full index. *)
Record ndarray : Type := mk_ndarray {
  shape : list nat;
  item : list nat -> R
}.

(** [np.meshgrid(xs, ys)] on two 1-d arrays: two arrays of shape
    [(len ys, len xs)], the first repeating [xs] along the rows, the second
    repeating [ys] along the columns. *)
Definition meshgrid (xs ys : list R) : ndarray * ndarray :=
  ({| shape := [length ys; length xs];
      item := fun ix => match ix with [_; j] => nth j xs 0 | _ => 0 end |},
   {| shape := [length ys; length xs];
      item := fun ix => match ix with [i; _] => nth i ys 0 | _ => 0 end |}).

(** [a * b] on arrays of one shape: the element-wise product. *)
Definition multiply (a b : ndarray) : ndarray :=
  {| shape := shape a; item := fun ix => item a ix * item b ix |}.

(** [np.dstack([a, b, c])] on three 2-d arrays of one shape [(M, N)]: the
    array of shape [(M, N, 3)] whose last axis runs over [a], [b], [c]. *)
Definition dstack (a b c : ndarray) : ndarray :=
  {| shape := shape a ++ [3%nat];
     item := fun ix =>
       match ix with
       | [i; j; 0%nat] => item a [i; j]
       | [i; j; 1%nat] => item b [i; j]
       | [i; j; 2%nat] => item c [i; j]
       | _ => 0
       end |}.

(** [np.min] and [np.max] of a 1-d array; an empty array has no minimum
    and the reduction raises [ValueError]. *)
Definition amin (l : list R) : result R :=
  match l with
  | [] => Raise ValueError
  | x :: l' => Ok (fold_left Rmin l' x)
  end.

Definition amax (l : list R) : result R :=
  match l with
  | [] => Raise ValueError
  | x :: l' => Ok (fold_left Rmax l' x)
  end.

Fixpoint insert (x : R) (l : list R) : list R :=
  match l with
  | [] => [x]
  | y :: l' => if Rle_dec x y then x :: l else y :: insert x l'
  end.

Definition sort (l : list R) : list R := fold_right insert [] l.

(** [np.median] of a 1-d array: the middle element of the sorted values,
    or the mean of the two middle ones; [nan] on an empty array. *)
Definition median (l : list R) : option R :=
  match l with
  | [] => None
  | _ :: _ =>
      let s := sort l in
      let n := length l in
      if Nat.even n
      then Some ((nth (n / 2 - 1) s 0 + nth (n / 2) s 0) / 2)
      else Some (nth (n / 2) s 0)
  end.

(** [np.arccos]: [nan] outside [[-1, 1]]. *)
Definition arccos (x : R) : option R :=
  if Rle_dec (-1) x then if Rle_dec x 1 then Some (acos x) else None
  else None.

(** [np.linalg.norm] of a 3-vector *)
Definition norm (v : vec3) : R := sqrt (dot3 v v).

End np.

(** ** [construct_K] *)

(** [npm.eye(3)] with the four calibration entries overwritten. *)
Definition construct_K (fx fy cx cy : R) : mat3 :=
  ((fx, 0, cx), (0, fy, cy), (0, 0, 1)).

(** [kinect_v1_params.K_depth] *)
Definition kinect_K_depth : mat3 :=
  ((576.09757860, 0, 319.5), (0, 576.09757860, 239.5), (0, 0, 1)).

(** ** Rigid transforms ([bot_geometry.rigid_transform]) *)

Module Quaternion.

(** Modelled from the spec: [bot_geometry.rigid_transform.Quaternion] is not
    among the sources.  The spec stores a rotation "internally as a unit
    quaternion", exposes "a derived 3x3 matrix accessor" and asks that the
    "conversions must guarantee round-trip fidelity"; a quaternion is
    therefore modelled by the rotation matrix it stands for. *)
Record t : Type := mk { matrix : mat3 }.

(** Modelled from the spec: [to_homogeneous_matrix] of a quaternion, the
    4x4 matrix of the rotation alone. *)
Definition to_homogeneous_matrix (q : t) : mat4 :=
  let '((a, b, c), (d, e, f), (g, h, i)) := matrix q in
  ((a, b, c, 0), (d, e, f, 0), (g, h, i, 0), (0, 0, 0, 1)).

End Quaternion.

Module RigidTransform.

(** Modelled from the spec: [bot_geometry.rigid_transform.RigidTransform]
    is not among the sources; a pose is a rotation [quat] and a translation
    [tvec] ("rotation + translation as a rigid transform"). *)
Record t : Type := mk { quat : Quaternion.t; tvec : vec3 }.

(** Modelled from the spec: "constructed from R,t". *)
Definition from_Rt (R : mat3) (tv : vec3) : t :=
  {| quat := Quaternion.mk R; tvec := tv |}.

(** Modelled from the spec: the pair [(R, t)] of a pose. *)
Definition to_Rt (p : t) : mat3 * vec3 :=
  (Quaternion.matrix (quat p), tvec p).

(** Modelled from the spec: the 4x4 matrix [[R t; 0 1]], whose first three
    rows are the [[R|t]] of "P = K [R|t]". *)
Definition to_homogeneous_matrix (p : t) : mat4 :=
  let '((a, b, c), (d, e, f), (g, h, i)) := Quaternion.matrix (quat p) in
  let '(x, y, z) := tvec p in
  ((a, b, c, x), (d, e, f, y), (g, h, i, z), (0, 0, 0, 1)).

(** Modelled from the spec: [p * pts], the points taken into the frame of
    the pose ("camera-frame depth", [p_c = T_cw * p_w] in the source). *)
Definition mul (p : t) (pts : list vec3) : list vec3 :=
  map (fun X => add3 (mvmul3 (Quaternion.matrix (quat p)) X) (tvec p)) pts.

End RigidTransform.

(** ** [CameraIntrinsic] *)

Module CameraIntrinsic.

Record t : Type := mk {
  K : mat3;                   (* calibration matrix *)
  D : list R;                 (* distortion *)
  cx : option R;              (* camera center, [None] when not set *)
  cy : option R;
  fx : R;                     (* focal length *)
  fy : R;
  shape : option (list Z);    (* image size (H,W,C), or [None] *)
  int_dtype : bool            (* [cx], [cy], [fx], [fy] are numpy integers *)
}.

Definition default_D : list R := [0; 0; 0; 0].

(** [__init__(self, K, D, shape)] on a calibration matrix of floats: the
    four entries are stored as they are, as floats. *)
Definition init (K0 : mat3) (D0 : list R) (shape0 : option (list Z)) : t :=
  {| K := K0;
     D := D0;
     cx := Some (mget K0 I0 I2);
     cy := Some (mget K0 I1 I2);
     fx := mget K0 I0 I0;
     fy := mget K0 I1 I1;
     shape := shape0;
     int_dtype := false |}.

(** A 3x3 array of integers, and its entries as numbers. *)
Definition imat3 : Type := (Z * Z * Z) * (Z * Z * Z) * (Z * Z * Z).

Definition mat3_of_ints (M : imat3) : mat3 :=
  let '((a, b, c), (d, e, f), (g, h, i)) := M in
  ((IZR a, IZR b, IZR c), (IZR d, IZR e, IZR f), (IZR g, IZR h, IZR i)).

(** [__init__(self, K, D, shape)] on a calibration matrix of integer dtype,
    such as [np.array([[500, 0, 320], [0, 500, 240], [0, 0, 1]])]: the four
    entries are stored unconverted, as numpy integers. *)
Definition init_int (K0 : imat3) (D0 : list R) (shape0 : option (list Z)) : t :=
  let Kr := mat3_of_ints K0 in
  {| K := Kr;
     D := D0;
     cx := Some (mget Kr I0 I2);
     cy := Some (mget Kr I1 I2);
     fx := mget Kr I0 I0;
     fy := mget Kr I1 I1;
     shape := shape0;
     int_dtype := true |}.

(** Python 2 [x / y] on two numpy scalars of one dtype: floor division on
    integers (with [0] for a zero divisor), true division on floats. *)
Definition py2_div (ints : bool) (x y : R) : R :=
  if ints then IZR (Int_part (x / y)) else x / y.

Definition from_calib_params (fx0 fy0 cx0 cy0 : R) : t :=
  init (construct_K fx0 fy0 cx0 cy0) default_D None.

(** a 640x480 camera with 500 focal length *)
Definition simluate : t := from_calib_params 500 500 320 240.

(** The [fov] property: the field of view for each axis. *)
Definition fov (c : t) : result (R * R) :=
  x <- num (cx c) ;;
  y <- num (cy c) ;;
  Ok (atan (py2_div (int_dtype c) x (fx c)) * 2,
      atan (py2_div (int_dtype c) y (fy c)) * 2).

End CameraIntrinsic.

(** ** [CameraExtrinsic] *)

Module CameraExtrinsic.

(** [__init__(self, R, t)]: the pose [from_Rt(R, t)], copied field by field. *)
Definition init (R0 : mat3) (t0 : vec3) : RigidTransform.t :=
  let p := RigidTransform.from_Rt R0 t0 in
  {| RigidTransform.quat := RigidTransform.quat p;
     RigidTransform.tvec := RigidTransform.tvec p |}.

(** The [R] property *)
Definition R (p : RigidTransform.t) : mat3 :=
  top3x3 (Quaternion.to_homogeneous_matrix (RigidTransform.quat p)).

(** The [t] property *)
Definition t (p : RigidTransform.t) : vec3 := RigidTransform.tvec p.

Definition identity : RigidTransform.t := init eye3 zeros3.

Definition simulate : RigidTransform.t := identity.

End CameraExtrinsic.

(** ** [Camera]: intrinsics and extrinsics together *)

Module Camera.

(** The class inherits from both [CameraIntrinsic] and [CameraExtrinsic];
    an instance carries the attributes of the two. *)
Record t : Type := mk {
  intrinsic : CameraIntrinsic.t;
  extrinsic : RigidTransform.t
}.

Definition K (c : t) : mat3 := CameraIntrinsic.K (intrinsic c).
Definition D (c : t) : list R := CameraIntrinsic.D (intrinsic c).
Definition cx (c : t) : option R := CameraIntrinsic.cx (intrinsic c).
Definition cy (c : t) : option R := CameraIntrinsic.cy (intrinsic c).
Definition fx (c : t) : R := CameraIntrinsic.fx (intrinsic c).
Definition fy (c : t) : R := CameraIntrinsic.fy (intrinsic c).
Definition shape (c : t) : option (list Z) := CameraIntrinsic.shape (intrinsic c).
Definition quat (c : t) : Quaternion.t := RigidTransform.quat (extrinsic c).
Definition tvec (c : t) : vec3 := RigidTransform.tvec (extrinsic c).
Definition fov (c : t) : result (R * R) := CameraIntrinsic.fov (intrinsic c).

(** [__init__(self, K, R, t, D, shape)] *)
Definition init (K0 : mat3) (R0 : mat3) (t0 : vec3) (D0 : list R)
    (shape0 : option (list Z)) : t :=
  {| intrinsic := CameraIntrinsic.init K0 D0 shape0;
     extrinsic := CameraExtrinsic.init R0 t0 |}.

(** The projection matrix [P = K [R|t]], computed from the current state. *)
Definition P (c : t) : mat34 :=
  let Rt := top3 (RigidTransform.to_homogeneous_matrix (extrinsic c)) in
  mmul3_34 (K c) Rt.

Definition from_intrinsics_extrinsics
    (i : CameraIntrinsic.t) (e : RigidTransform.t) : t :=
  init (CameraIntrinsic.K i) (CameraExtrinsic.R e) (CameraExtrinsic.t e)
       (CameraIntrinsic.D i) (CameraIntrinsic.shape i).

Definition simulate : t :=
  from_intrinsics_extrinsics CameraIntrinsic.simluate CameraExtrinsic.simulate.

(** [center(self)]: raises when [cx] is [None], else the 1x2 matrix
    [[cx, cy]]. *)
Definition center (c : t) : result (R * option R) :=
  match cx c with
  | None => Raise AssertionError
  | Some x => Ok (x, cy c)
  end.

(** [set_pose(self, pose)]: two attribute assignments. *)
Definition set_pose (c : t) (pose : RigidTransform.t) : t :=
  {| intrinsic := intrinsic c;
     extrinsic := {| RigidTransform.quat := RigidTransform.quat pose;
                     RigidTransform.tvec := RigidTransform.tvec pose |} |}.

Section OpenCV.

(** [cv2.Rodrigues] (rotation matrix to axis-angle vector) and
    [cv2.projectPoints] (points, rvec, tvec, K, D to image points) belong to
    OpenCV and are taken as they come. *)
Variable Rodrigues : mat3 -> vec3.
Variable projectPoints :
  list vec3 -> vec3 -> vec3 -> mat3 -> list R ->
  list (R * R).

(** [project(self, X)]: [Nx3] points onto the image plane, [Nx2]. *)
Definition project (c : t) (X : list vec3) :
    list (R * R) :=
  let '(R0, t0) := RigidTransform.to_Rt (extrinsic c) in
  let rvec := Rodrigues R0 in
  projectPoints X rvec t0 (K c) (D c).

End OpenCV.

(** The [R] property, inherited from [CameraExtrinsic]. *)
Definition R (c : t) : mat3 := CameraExtrinsic.R (extrinsic c).

End Camera.

(** [KinectCamera(R, t)] *)
Definition KinectCamera (R0 : mat3) (t0 : vec3) : Camera.t :=
  Camera.init kinect_K_depth R0 t0 CameraIntrinsic.default_D None.

(** ** [DepthCamera] *)

Module DepthCamera.

Record t : Type := mk {
  base : CameraIntrinsic.t;
  skip : Z;
  xs : np.ndarray;
  ys : np.ndarray
}.

(** [_build_mesh(self, shape)]: the two grids of normalised rays. *)
Definition _build_mesh (self : CameraIntrinsic.t) (skip0 : Z) (shape0 : list Z)
    : result (np.ndarray * np.ndarray) :=
  match shape0 with
  | [H; W] =>
      let xs0 := np.arange (Z.to_nat W) in
      let ys0 := np.arange (Z.to_nat H) in
      let fx_inv := 1 / CameraIntrinsic.fx self in
      cx <- num (CameraIntrinsic.cx self) ;;
      let xs1 := map (fun x => (x - cx) * fx_inv) xs0 in
      xs2 <- np.slice_step skip0 xs1 ;;
      cy <- num (CameraIntrinsic.cy self) ;;
      let ys1 := map (fun y => (y - cy) * fx_inv) ys0 in
      ys2 <- np.slice_step skip0 ys1 ;;
      Ok (np.meshgrid xs2 ys2)
  | _ => Raise ValueError
  end.

(** [__init__(self, K, shape, skip, D)] *)
Definition init (K0 : mat3) (shape0 : list Z) (skip0 : Z) (D0 : list R)
    : result t :=
  let i := CameraIntrinsic.init K0 D0 None in
  let self := {| CameraIntrinsic.K := CameraIntrinsic.K i;
                 CameraIntrinsic.D := CameraIntrinsic.D i;
                 CameraIntrinsic.cx := CameraIntrinsic.cx i;
                 CameraIntrinsic.cy := CameraIntrinsic.cy i;
                 CameraIntrinsic.fx := CameraIntrinsic.fx i;
                 CameraIntrinsic.fy := CameraIntrinsic.fy i;
                 CameraIntrinsic.shape := Some shape0;
                 CameraIntrinsic.int_dtype := CameraIntrinsic.int_dtype i |} in
  mesh <- _build_mesh self skip0 shape0 ;;
  Ok {| base := self; skip := skip0; xs := fst mesh; ys := snd mesh |}.

(** [reconstruct(self, depth)] *)
Definition reconstruct (self : t) (depth : np.ndarray) : result np.ndarray :=
  if list_eq_dec Nat.eq_dec (np.shape depth) (np.shape (xs self))
  then Ok (np.dstack (np.multiply (xs self) depth)
                     (np.multiply (ys self) depth)
                     depth)
  else Raise AssertionError.

End DepthCamera.

(** [KinectDepthCamera(K, shape)] *)
Definition KinectDepthCamera (K0 : mat3) (shape0 : list Z)
    : result DepthCamera.t :=
  DepthCamera.init K0 shape0 1 CameraIntrinsic.default_D.

(** ** Two-view geometry *)

(** [compute_essential(F, K)]: [K.T * npm.mat(F) * K], two matrix
    products, evaluated left to right. *)
Definition compute_essential (F K : mat3) : mat3 :=
  mmul3 (mmul3 (transpose3 K) F) K.

(** ** Visibility *)

(** [v / np.linalg.norm(v)] on one row: a zero norm only occurs for the
    zero vector, where every component is [0/0], that is [nan]. *)
Definition unit_row (v : vec3) : option vec3 :=
  let n := np.norm v in
  if Req_dec_T n 0 then None
  else let '(a, b, c) := v in Some (a / n, b / n, c / n).

(** One entry of [thetas]: the arc cosine of the row sum of
    [lookat * (v / norm v)]. *)
Definition theta (lookat v : vec3) : option R :=
  match unit_row v with
  | None => None
  | Some u => np.arccos (dot3 lookat u)
  end.

(** [check_visibility(camera, pts)] *)
Definition check_visibility (camera : Camera.t) (pts : list vec3)
    : result (list bool) :=
  fovs <- Camera.fov camera ;;
  let fov := Rmax (fst fovs) (snd fovs) in
  let lookat := col3 (Camera.R camera) I2 in
  let v := map (fun p => sub3 p (Camera.tvec camera)) pts in
  let thetas := map (theta lookat) v in
  Ok (map (fun th => nan_ltb th (Some fov)) thetas).

(** ** Bounding box of a projected object *)

Record Box : Type := mk_Box { left : Z; right : Z; top : Z; bottom : Z }.

(** What [get_object_bbox] returns: [[None] * 3], or the projected points,
    the box and the median depth. *)
Inductive bbox_result : Type :=
| NoResult
| Found (pts2d : list (Z * Z)) (box : Box) (depth : option R).

(** [camera.shape[i]] *)
Definition shape_at (camera : Camera.t) (i : nat) : result Z :=
  match Camera.shape camera with
  | None => Raise TypeError
  | Some s =>
      match nth_error s i with
      | Some n => Ok n
      | None => Raise IndexError
      end
  end.

Section ObjectBBox.

Variable Rodrigues : mat3 -> vec3.
Variable projectPoints :
  list vec3 -> vec3 -> vec3 -> mat3 -> list R -> list (R * R).

Definition get_object_bbox (camera : Camera.t) (pts : list vec3)
    (subsample : Z) (scale min_height min_width : R) : result bbox_result :=
  sub <- np.slice_step subsample pts ;;
  let pts2d := Camera.project Rodrigues projectPoints camera sub in
  let us := map fst pts2d in
  let vs := map snd pts2d in
  (* min-max bounds *)
  umin <- np.amin us ;;
  W <- shape_at camera 1 ;;
  umax <- np.amax us ;;
  let x0 := py_int (Rmax 0 umin) in
  let x1 := py_int (Rmin (IZR (W - 1)) umax) in
  vmin <- np.amin vs ;;
  H <- shape_at camera 0 ;;
  vmax <- np.amax vs ;;
  let y0 := py_int (Rmax 0 vmin) in
  let y1 := py_int (Rmin (IZR (H - 1)) vmax) in
  (* only the points within image bounds *)
  let valid := fun p : R * R =>
    (Rleb 0 (fst p) && Rltb (fst p) (IZR W)) &&
    (Rleb 0 (snd p) && Rltb (snd p) (IZR H)) in
  let pts2d := filter valid pts2d in
  (* median center *)
  let xmed := np.median (map fst pts2d) in
  let ymed := np.median (map snd pts2d) in
  if (nan_leb (Some 0) xmed && nan_leb (Some 0) ymed &&
      nan_leb xmed (Some (IZR W)) && nan_ltb ymed (Some (IZR H))) &&
     Rleb min_height (IZR (y1 - y0)) && Rleb min_width (IZR (x1 - x0))
  then
    (* median depth of the candidate object, in the camera frame *)
    sub' <- np.slice_step subsample pts ;;
    let depth :=
      np.median (map (fun X => get3 X I2)
                     (RigidTransform.mul (Camera.extrinsic camera) sub')) in
    if nan_ltb depth (Some 0) then Ok NoResult
    else
      let '(x0, x1, y0, y1) :=
        if Req_dec_T scale 1 then (x0, x1, y0, y1)
        else
          let w2 := (scale - 1) * IZR (x1 - x0) / 2 in
          let h2 := (scale - 1) * IZR (y1 - y0) / 2 in
          (py_int (Rmax 0 (IZR x0 - w2)),
           py_int (Rmin (IZR x1 + w2) (IZR (W - 1))),
           py_int (Rmax 0 (IZR y0 - h2)),
           py_int (Rmin (IZR y1 + h2) (IZR (H - 1)))) in
      Ok (Found (map (fun p => (py_int (fst p), py_int (snd p))) pts2d)
                {| left := x0; right := x1; top := y0; bottom := y1 |}
                depth)
  else Ok NoResult.

End ObjectBBox.

(** ** Reading a projection matrix *)

(** A world point in homogeneous coordinates. *)
Definition homogeneous (X : vec3) : vec4 :=
  let '(x, y, z) := X in (x, y, z, 1).

(** [P] takes the world point [X] to the image point [uv]: the homogeneous
    image [P X] has a non-zero last coordinate and [uv] is what remains
    after dividing by it. *)
Definition projects_to (P : mat34) (X : vec3) (uv : R * R) : Prop :=
  let '(a, b, c) := mvmul34 P (homogeneous X) in
  c <> 0 /\ a / c = fst uv /\ b / c = snd uv.

(** ** Epipoles *)

Section SVD.

(** [scipy.linalg.svd(F)] returns [(U, s, Vh)]; the routine belongs to scipy
    and is taken as it comes. *)
Variable svd : mat3 -> mat3 * vec3 * mat3.

(** [compute_epipole(F)]: the last row [e] of the third factor, divided by
    its third component.  When [e[2]] is zero the quotients are [0/0] and
    [x/0], a vector without a finite value, written [None]. *)
Definition compute_epipole (F : mat3) : option vec3 :=
  let '(_, _, V) := svd F in
  let e := row3 V I2 in
  let '(a, b, c) := e in
  if Req_dec_T c 0 then None else Some (a / c, b / c, c / c).

End SVD.

(** ** Determinants *)

Definition det3 (M : mat3) : R :=
  let '((a, b, c), (d, e, f), (g, h, i)) := M in
  a * (e * i - f * h) - b * (d * i - f * g) + c * (d * h - e * g).

(** [a * v] *)
Definition scale3 (a : R) (v : vec3) : vec3 :=
  let '(x, y, z) := v in (a * x, a * y, a * z).

(** ** Fixtures *)

(** [np.ones(shape)] *)
Definition ones (s : list nat) : np.ndarray :=
  {| np.shape := s; np.item := fun _ => 1 |}.

(** A calibration matrix whose two focal lengths differ. *)
Definition K_500_400 : mat3 := construct_K 500 400 0 0.

(** A 640x480 camera at the origin, with its image shape set. *)
Definition vga_camera : Camera.t :=
  Camera.init (construct_K 500 500 320 240) eye3 zeros3
              CameraIntrinsic.default_D (Some [480; 640; 3]%Z).

(** Stand-ins for the two OpenCV routines, for running examples: no
    rotation vector is computed, and points are projected without
    distortion by an unrotated camera. *)
Definition no_Rodrigues (_ : mat3) : vec3 := zeros3.

Definition pinhole_projectPoints (X : list vec3) (rvec tv : vec3) (K0 : mat3)
    (D0 : list R) : list (R * R) :=
  map (fun p =>
         let '(x, y, z) := add3 p tv in
         (mget K0 I0 I0 * (x / z) + mget K0 I0 I2,
          mget K0 I1 I1 * (y / z) + mget K0 I1 I2)) X.

(** The factors scipy returns for [diag(1, 1, 0)]: [U] and [Vh] are the
    identity and the singular values are [1, 1, 0]. *)
Definition diag110 : mat3 := ((1, 0, 0), (0, 1, 0), (0, 0, 0)).

Definition svd_diag110 (_ : mat3) : mat3 * vec3 * mat3 :=
  (eye3, (1, 1, 0), eye3).

(** ** Image bounds *)

(** The image point [p] lies within an image of width [W] and height [H]. *)
Definition in_image (W H : Z) (p : R * R) : Prop :=
  0 <= fst p < IZR W /\ 0 <= snd p < IZR H.

(** The mask [valid] of [get_object_bbox], for an image of width [W] and
    height [H]. *)
Definition valid_px (W H : Z) (p : R * R) : bool :=
  (Rleb 0 (fst p) && Rltb (fst p) (IZR W)) &&
  (Rleb 0 (snd p) && Rltb (snd p) (IZR H)).

(** [astype(np.int32)] on one projected point. *)
Definition to_pixel (p : R * R) : Z * Z := (py_int (fst p), py_int (snd p)).

(** The pixel [q] lies in the box, borders included. *)
Definition in_box (b : Box) (q : Z * Z) : Prop :=
  (left b <= fst q <= right b)%Z /\ (top b <= snd q <= bottom b)%Z.

(** * Properties *)

(** ** Auxiliary facts: comparisons and truncation *)

Lemma Rleb_true (x y : R) : x <= y -> Rleb x y = true.
Proof. intros H. unfold Rleb. destruct (Rle_dec x y); [reflexivity | contradiction]. Qed.

Lemma Rleb_false (x y : R) : y < x -> Rleb x y = false.
Proof. intros H. unfold Rleb. destruct (Rle_dec x y); [lra | reflexivity]. Qed.

Lemma Rltb_true (x y : R) : x < y -> Rltb x y = true.
Proof. intros H. unfold Rltb. destruct (Rlt_dec x y); [reflexivity | contradiction]. Qed.

Lemma Rltb_false (x y : R) : y <= x -> Rltb x y = false.
Proof. intros H. unfold Rltb. destruct (Rlt_dec x y); [lra | reflexivity]. Qed.

Lemma Rleb_spec (x y : R) : Rleb x y = true <-> x <= y.
Proof.
  unfold Rleb. destruct (Rle_dec x y); split; intros; try easy.
Qed.

Lemma Rltb_spec (x y : R) : Rltb x y = true <-> x < y.
Proof.
  unfold Rltb. destruct (Rlt_dec x y); split; intros; try easy.
Qed.

Lemma atan_inj (x y : R) : atan x = atan y -> x = y.
Proof.
  intros E.
  destruct (Rtotal_order x y) as [L | [L | L]]; [| exact L |].
  - apply atan_increasing in L. lra.
  - apply atan_increasing in L. lra.
Qed.

(** ** C7: [set_pose] *)


(** ** C8: the essential matrix *)

(** C8. [compute_essential(F, K)] is the 3x3 matrix [K^T F K]: its entry
    [(i, j)] is the double sum of [K[a,i] * F[a,b] * K[b,j]] over [a] and
    [b].  The value returned is that one matrix, nothing is factored out
    of it. *)
Theorem compute_essential_is_Kt_F_K (F K : mat3) (i j : ix3) :
  mget (compute_essential F K) i j =
  sum3 (fun a => sum3 (fun b => mget K a i * mget F a b * mget K b j)).
Proof.
  destruct F as [[[[f00 f01] f02] [[f10 f11] f12]] [[f20 f21] f22]].
  destruct K as [[[[k00 k01] k02] [[k10 k11] k12]] [[k20 k21] k22]].
  destruct i, j; cbv [compute_essential mmul3 transpose3 col3 mget get3 row3 dot3 sum3]; ring.
Qed.

(** ** C9: [center] on a constructed camera *)

(** C9. On a camera built by the constructor, and hence by
    [from_intrinsics_extrinsics], [simulate] or [KinectCamera], also after a
    later [set_pose], [center()] does not raise: [cx] holds [K[0,2]], never
    [None], and the result is the pair [(cx, cy)]. *)
Theorem center_of_constructed_camera
    (K0 R0 : mat3) (t0 : vec3) (D0 : list R) (shape0 : option (list Z))
    (i : CameraIntrinsic.t) (e pose : RigidTransform.t) :
  let c := Camera.init K0 R0 t0 D0 shape0 in
  (Camera.cx c = Some (mget K0 I0 I2) /\
   Camera.cy c = Some (mget K0 I1 I2) /\
   Camera.center c = Ok (mget K0 I0 I2, Some (mget K0 I1 I2)) /\
   Camera.center (Camera.set_pose c pose) =
     Ok (mget K0 I0 I2, Some (mget K0 I1 I2)))
  /\
  Camera.center (Camera.from_intrinsics_extrinsics i e) =
    Ok (mget (CameraIntrinsic.K i) I0 I2, Some (mget (CameraIntrinsic.K i) I1 I2))
  /\
  Camera.center Camera.simulate = Ok (320, Some 240)
  /\
  Camera.center (KinectCamera R0 t0) = Ok (319.5, Some 239.5).
Proof.
  cbv zeta. repeat split; reflexivity.
Qed.

(** ** C4: field of view *)

(** C4, as stated, fails on the simulated 640x480 camera with focal length
    500: the two angles it returns are not equal. *)
Lemma fov_equal_axes_fails_on_simulated_camera :
  ~ (forall ax ay : R,
       CameraIntrinsic.fov
         (CameraIntrinsic.from_calib_params 500 500 (640 / 2) (480 / 2))
       = Ok (ax, ay) ->
       ax = ay /\ ax = 2 * atan ((640 / 2) / 500)).
Proof.
  intros H.
  destruct (H _ _ eq_refl) as [E _]. cbn in E.
  assert (E' : atan (640 / 2 / 500) = atan (480 / 2 / 500)) by lra.
  apply atan_inj in E'. lra.
Qed.

(** C4 (amended). On an object whose calibration matrix holds floats, with
    [cx], [cy] set and [fx, fy > 0], the accessor returns
    [(2 atan(cx/fx), 2 atan(cy/fy))].  For [fx = fy = f > 0], [cx = W/2],
    [cy = H/2], given as floats to [from_calib_params], the angles are
    [2 atan((W/2)/f)] and [2 atan((H/2)/f)]; they are equal exactly when
    [W = H]. *)
Theorem fov_per_axis (c : CameraIntrinsic.t) (x y f W H : R) :
  CameraIntrinsic.int_dtype c = false ->
  CameraIntrinsic.cx c = Some x ->
  CameraIntrinsic.cy c = Some y ->
  0 < CameraIntrinsic.fx c ->
  0 < CameraIntrinsic.fy c ->
  0 < f ->
  CameraIntrinsic.fov c =
    Ok (2 * atan (x / CameraIntrinsic.fx c), 2 * atan (y / CameraIntrinsic.fy c))
  /\
  CameraIntrinsic.fov (CameraIntrinsic.from_calib_params f f (W / 2) (H / 2)) =
    Ok (2 * atan ((W / 2) / f), 2 * atan ((H / 2) / f))
  /\
  (2 * atan ((W / 2) / f) = 2 * atan ((H / 2) / f) <-> W = H).
Proof.
  intros Hd Hx Hy Hfx Hfy Hf.
  split; [| split].
  - unfold CameraIntrinsic.fov, CameraIntrinsic.py2_div.
    rewrite Hd, Hx, Hy. cbn.
    f_equal. f_equal; ring.
  - cbn. f_equal. f_equal; ring.
  - split.
    + intros E.
      assert (E' : atan (W / 2 / f) = atan (H / 2 / f)) by lra.
      apply atan_inj in E'.
      assert (Hne : f <> 0) by lra.
      apply (f_equal (fun r => r * f * 2)) in E'.
      field_simplify in E'; lra.
    + intros ->. reflexivity.
Qed.

Lemma fov_per_axis_witness :
  CameraIntrinsic.fov CameraIntrinsic.simluate =
    Ok (2 * atan (320 / 500), 2 * atan (240 / 500))
  /\
  CameraIntrinsic.fov (CameraIntrinsic.from_calib_params 500 500 (640 / 2) (480 / 2)) =
    Ok (2 * atan ((640 / 2) / 500), 2 * atan ((480 / 2) / 500))
  /\
  (2 * atan ((640 / 2) / 500) = 2 * atan ((480 / 2) / 500) <-> 640 = 480).
Proof.
  apply (fov_per_axis CameraIntrinsic.simluate 320 240 500 640 480).
  - reflexivity.
  - reflexivity.
  - reflexivity.
  - cbn. lra.
  - cbn. lra.
  - lra.
Defined.

(** ** C3: the projection matrix of the simulated camera *)

(** The projection matrix of the simulated camera is [[K | 0]]. *)
Lemma simulate_P :
  Camera.P Camera.simulate =
  ((500, 0, 320, 0), (0, 500, 240, 0), (0, 0, 1, 0)).
Proof.
  cbv [Camera.P Camera.simulate Camera.from_intrinsics_extrinsics Camera.init
       Camera.K Camera.extrinsic Camera.intrinsic
       CameraIntrinsic.simluate CameraIntrinsic.from_calib_params
       CameraIntrinsic.init CameraIntrinsic.K CameraIntrinsic.D
       CameraIntrinsic.shape construct_K
       CameraExtrinsic.simulate CameraExtrinsic.identity CameraExtrinsic.init
       CameraExtrinsic.R CameraExtrinsic.t
       RigidTransform.from_Rt RigidTransform.quat RigidTransform.tvec
       RigidTransform.to_homogeneous_matrix
       Quaternion.to_homogeneous_matrix Quaternion.matrix
       top3 top3x3 eye3 zeros3 mmul3_34 cols34 dot3].
  repeat f_equal; ring.
Qed.

(** C3, as stated, fails: the simulated camera sits at the world origin, so
    [P] sends the origin to the zero vector, which has no normalisation;
    the origin is not taken to the image centre. *)
Lemma origin_not_projected_to_center :
  ~ projects_to (Camera.P Camera.simulate) (0, 0, 0) (320, 240).
Proof.
  rewrite simulate_P.
  cbv [projects_to homogeneous mvmul34 dot4 fst snd].
  intros [Hc _]. apply Hc. ring.
Qed.

(** C3 (amended). For the simulated camera ([fx = fy = 500], [cx = 320],
    [cy = 240], identity rotation, zero translation), [P] takes every point
    [(0, 0, z)] of the optical axis with [z <> 0] to the image centre
    [(320, 240)]; the world origin itself goes to the zero vector. *)
Theorem optical_axis_projects_to_center (z : R) :
  z <> 0 ->
  projects_to (Camera.P Camera.simulate) (0, 0, z) (320, 240) /\
  mvmul34 (Camera.P Camera.simulate) (homogeneous (0, 0, 0)) = (0, 0, 0).
Proof.
  intros Hz. rewrite simulate_P.
  cbv [projects_to homogeneous mvmul34 dot4 fst snd].
  split; [split; [| split] |].
  - intros E. apply Hz. lra.
  - field. lra.
  - field. lra.
  - repeat f_equal; ring.
Qed.

Lemma optical_axis_projects_to_center_witness :
  projects_to (Camera.P Camera.simulate) (0, 0, 1) (320, 240) /\
  mvmul34 (Camera.P Camera.simulate) (homogeneous (0, 0, 0)) = (0, 0, 0).
Proof.
  apply (optical_axis_projects_to_center 1). lra.
Defined.

(** ** Strided slices *)

Lemma nth_nil_default {A : Type} (n : nat) (d : A) : nth n [] d = d.
Proof. destruct n; reflexivity. Qed.

(** Entry [j] of a strided slice is entry [c + j * (k + 1)] of the list. *)
Lemma take_every_nth {A : Type} (d : A) (k : nat) (l : list A) :
  forall c j : nat,
    nth j (np.take_every k c l) d = nth (c + j * S k) l d.
Proof.
  induction l as [| x l IH]; intros c j.
  - cbn [np.take_every]. now rewrite !nth_nil_default.
  - destruct c as [| c]; cbn [np.take_every].
    + destruct j as [| j]; [reflexivity |].
      cbn [nth]. rewrite IH.
      replace (0 + S j * S k)%nat with (S (k + j * S k)) by lia.
      reflexivity.
    + rewrite IH. reflexivity.
Qed.

(** An index of the slice stays inside the list. *)
Lemma take_every_index {A : Type} (k : nat) (l : list A) :
  forall c j : nat,
    (j < length (np.take_every k c l))%nat -> (c + j * S k < length l)%nat.
Proof.
  induction l as [| x l IH]; intros c j Hj.
  - cbn in Hj. lia.
  - destruct c as [| c]; cbn [np.take_every] in Hj.
    + destruct j as [| j]; cbn [length] in *; [lia |].
      apply PeanoNat.lt_S_n in Hj. apply IH in Hj. lia.
    + apply IH in Hj. cbn [length]. lia.
Qed.

Lemma arange_nth (f : R -> R) (n W : nat) :
  (n < W)%nat -> nth n (map f (np.arange W)) 0 = f (INR n).
Proof.
  intros Hn. unfold np.arange.
  rewrite (nth_indep _ 0 (f (INR 0))) by (now rewrite !length_map, length_seq).
  rewrite map_nth, map_nth, seq_nth by exact Hn.
  reflexivity.
Qed.

(** ** C5: the shape check of [reconstruct] *)

(** C5. A depth array whose shape is not that of the mesh makes
    [reconstruct] raise [AssertionError], with no array returned; a depth
    array of the mesh's shape is reconstructed, into an array with a third
    axis of length 3. *)
Theorem reconstruct_shape_check (dc : DepthCamera.t) (depth : np.ndarray) :
  (np.shape depth <> np.shape (DepthCamera.xs dc) ->
   DepthCamera.reconstruct dc depth = Raise AssertionError)
  /\
  (np.shape depth = np.shape (DepthCamera.xs dc) ->
   exists out : np.ndarray,
     DepthCamera.reconstruct dc depth = Ok out /\
     np.shape out = np.shape depth ++ [3%nat]).
Proof.
  unfold DepthCamera.reconstruct.
  destruct (list_eq_dec Nat.eq_dec (np.shape depth) (np.shape (DepthCamera.xs dc)))
    as [E | NE]; split; intros H; try contradiction.
  - eexists. split; [reflexivity |]. cbn. now rewrite E.
  - reflexivity.
Qed.

Lemma reconstruct_shape_check_witness :
  let mesh := np.meshgrid [0] [0; 1] in
  let dc := {| DepthCamera.base :=
                 CameraIntrinsic.init K_500_400 CameraIntrinsic.default_D None;
               DepthCamera.skip := 1;
               DepthCamera.xs := fst mesh;
               DepthCamera.ys := snd mesh |} in
  DepthCamera.reconstruct dc (ones [1; 2]%nat) = Raise AssertionError /\
  exists out : np.ndarray,
    DepthCamera.reconstruct dc (ones [2; 1]%nat) = Ok out /\
    np.shape out = np.shape (ones [2; 1]%nat) ++ [3%nat].
Proof.
  intros mesh dc. split.
  - apply (proj1 (reconstruct_shape_check dc (ones [1; 2]%nat))).
    cbn. discriminate.
  - apply (proj2 (reconstruct_shape_check dc (ones [2; 1]%nat))).
    reflexivity.
Defined.

(** ** C1: what [reconstruct] computes *)

(** On a camera built with a positive stride, entry [(i, j)] of the
    reconstruction is the depth scaled by the two rays of the mesh; both
    rays are divided by [fx], the one along the rows too. *)
Lemma reconstruct_entries
    (K0 : mat3) (H W skip0 : Z) (D0 : list R)
    (dc : DepthCamera.t) (depth out : np.ndarray) (rows cols i j : nat) :
  (0 < skip0)%Z ->
  DepthCamera.init K0 [H; W] skip0 D0 = Ok dc ->
  DepthCamera.reconstruct dc depth = Ok out ->
  np.shape (DepthCamera.xs dc) = [rows; cols] ->
  (i < rows)%nat -> (j < cols)%nat ->
  np.item out [i; j; 0%nat] =
    ((IZR skip0 * INR j - mget K0 I0 I2) / mget K0 I0 I0) * np.item depth [i; j] /\
  np.item out [i; j; 1%nat] =
    ((IZR skip0 * INR i - mget K0 I1 I2) / mget K0 I0 I0) * np.item depth [i; j] /\
  np.item out [i; j; 2%nat] = np.item depth [i; j].
Proof.
  intros Hskip Hinit Hrec Hshape Hi Hj.
  destruct skip0 as [| p | p]; try lia.
  unfold DepthCamera.init, DepthCamera._build_mesh in Hinit.
  cbn in Hinit. injection Hinit as <-.
  cbn in Hshape. injection Hshape as <- <-.
  unfold DepthCamera.reconstruct in Hrec.
  destruct (list_eq_dec _ _ _) as [_ | _]; [| discriminate].
  injection Hrec as <-.
  cbn [np.dstack np.item np.multiply DepthCamera.xs DepthCamera.ys
       np.meshgrid fst snd].
  pose proof (take_every_index _ _ _ _ Hi) as Hi'.
  pose proof (take_every_index _ _ _ _ Hj) as Hj'.
  rewrite length_map in Hi', Hj'. unfold np.arange in Hi', Hj'.
  rewrite length_map, length_seq in Hi', Hj'.
  rewrite !take_every_nth.
  assert (Hk : S (Pos.to_nat p - 1) = Pos.to_nat p) by lia.
  rewrite Hk in *. cbn [Nat.add] in *.
  rewrite !arange_nth by assumption.
  rewrite !mult_INR, !INR_IPR. change (IZR (Z.pos p)) with (IPR p).
  repeat split; unfold Rdiv; ring.
Qed.

(** C1. With [fx = 500], [fy = 400], [cx = cy = 0], shape [(2, 1)], stride
    1 and a depth map of ones, entry [(1, 0)] of the reconstruction has
    [y = (1 - cy) / fx = 1/500]; the claimed value, [(1 - cy) / fy], is
    [1/400].  The [x] and [z] components are the claimed ones. *)
Theorem reconstruct_divides_y_ray_by_fx :
  exists (dc : DepthCamera.t) (out : np.ndarray),
    DepthCamera.init K_500_400 [2; 1]%Z 1 CameraIntrinsic.default_D = Ok dc /\
    DepthCamera.reconstruct dc (ones [2; 1]%nat) = Ok out /\
    np.item out [1; 0; 0]%nat =
      ((1 * INR 0 - 0) / 500) * np.item (ones [2; 1]%nat) [1; 0]%nat /\
    np.item out [1; 0; 1]%nat = 1 / 500 /\
    np.item out [1; 0; 1]%nat <>
      ((1 * INR 1 - 0) / 400) * np.item (ones [2; 1]%nat) [1; 0]%nat /\
    np.item out [1; 0; 2]%nat = np.item (ones [2; 1]%nat) [1; 0]%nat.
Proof.
  eexists. eexists.
  split; [reflexivity |].
  split; [reflexivity |].
  cbn.
  change (Pos.to_nat 1) with 1%nat. change (Pos.to_nat 2) with 2%nat.
  cbn. repeat split; lra.
Qed.

(** ** C2: the visibility threshold *)

(** The angle between the optical axis [(0, 0, 1)] and [(1, 0, 1)]. *)
Lemma theta_diagonal : theta (0, 0, 1) (1, 0, 1) = Some (PI / 4).
Proof.
  assert (Hs : 0 < sqrt 2) by (apply sqrt_lt_R0; lra).
  assert (Hs2 : sqrt 2 * sqrt 2 = 2) by (apply sqrt_def; lra).
  unfold theta, unit_row, np.norm. cbv [dot3].
  replace (1 * 1 + 0 * 0 + 1 * 1) with 2 by ring.
  destruct (Req_dec_T (sqrt 2) 0) as [E | _]; [lra |].
  replace (0 * (1 / sqrt 2) + 0 * (0 / sqrt 2) + 1 * (1 / sqrt 2))
    with (1 / sqrt 2) by (field; lra).
  assert (Hle : 1 / sqrt 2 <= 1).
  { apply (Rmult_le_reg_r (sqrt 2)); [exact Hs |].
    replace (1 / sqrt 2 * sqrt 2) with 1 by (field; lra). nra. }
  assert (Hge : -1 <= 1 / sqrt 2).
  { assert (0 < 1 / sqrt 2) by (apply Rdiv_lt_0_compat; lra). lra. }
  unfold np.arccos.
  destruct (Rle_dec (-1) (1 / sqrt 2)); [| contradiction].
  destruct (Rle_dec (1 / sqrt 2) 1); [| contradiction].
  rewrite <- cos_PI4. rewrite acos_cos; [reflexivity |].
  pose proof PI_RGT_0. lra.
Qed.

(** Twice the half-angle [atan(320/500)] exceeds a quarter turn, the
    half-angle itself does not reach it. *)
Lemma simulated_fov_bounds :
  atan (320 / 500) < PI / 4 < atan (320 / 500) * 2 /\
  atan (240 / 500) < atan (320 / 500).
Proof.
  assert (H1 : atan (320 / 500) < atan 1) by (apply atan_increasing; lra).
  assert (H0 : atan 0 < atan (320 / 500)) by (apply atan_increasing; lra).
  assert (H2 : atan (240 / 500) < atan (320 / 500))
    by (apply atan_increasing; lra).
  rewrite atan_1 in H1. rewrite atan_0 in H0.
  assert (H3 : atan (Machin.atan_sub 1 (320 / 500)) < atan (320 / 500)).
  { apply atan_increasing. unfold Machin.atan_sub.
    apply (Rmult_lt_reg_r (1 + 1 * (320 / 500))); [lra |].
    unfold Rdiv at 1. rewrite Rmult_assoc, Rinv_l by lra. lra. }
  assert (H4 : atan 1 = atan (320 / 500) + atan (Machin.atan_sub 1 (320 / 500))).
  { apply Machin.atan_sub_correct.
    - lra.
    - rewrite atan_1. pose proof PI_RGT_0. lra.
    - apply atan_bound. }
  rewrite atan_1 in H4. lra.
Qed.

(** What the code decides for one point, on any camera whose centre is
    set: the angle is compared with the larger of the two whole
    field-of-view angles [2 atan(cx/fx)] and [2 atan(cy/fy)], the quotients
    being those of the dtype of [K]. *)
Lemma check_visibility_threshold (cam : Camera.t) (p : vec3) (x y : R) :
  Camera.cx cam = Some x ->
  Camera.cy cam = Some y ->
  let ints := CameraIntrinsic.int_dtype (Camera.intrinsic cam) in
  check_visibility cam [p] =
  Ok [nan_ltb (theta (col3 (Camera.R cam) I2) (sub3 p (Camera.tvec cam)))
              (Some (Rmax
                 (atan (CameraIntrinsic.py2_div ints x (Camera.fx cam)) * 2)
                 (atan (CameraIntrinsic.py2_div ints y (Camera.fy cam)) * 2)))].
Proof.
  intros Hx Hy.
  unfold check_visibility, Camera.fov, CameraIntrinsic.fov.
  unfold Camera.cx in Hx. unfold Camera.cy in Hy.
  rewrite Hx, Hy. reflexivity.
Qed.

(** C2. On the simulated camera (half-angles [atan(320/500)] and
    [atan(240/500)], looking along [(0, 0, 1)] from the origin) the point
    [(1, 0, 1)] lies at an angle of [PI/4] from the viewing direction.
    [check_visibility] marks it visible, because it compares the angle with
    the whole field-of-view angle; the angle is not less than half of the
    larger field-of-view angle. *)
Theorem check_visibility_compares_with_full_fov :
  check_visibility Camera.simulate [(1, 0, 1)] = Ok [true] /\
  theta (col3 (Camera.R Camera.simulate) I2)
        (sub3 (1, 0, 1) (Camera.tvec Camera.simulate)) = Some (PI / 4) /\
  exists ax ay : R,
    Camera.fov Camera.simulate = Ok (ax, ay) /\
    ~ (PI / 4 < Rmax ax ay / 2).
Proof.
  destruct simulated_fov_bounds as [[Hlo Hhi] Hxy].
  assert (Hmax : Rmax (atan (320 / 500) * 2) (atan (240 / 500) * 2)
                 = atan (320 / 500) * 2) by (apply Rmax_left; lra).
  assert (Hth : theta (col3 (Camera.R Camera.simulate) I2)
                  (sub3 (1, 0, 1) (Camera.tvec Camera.simulate)) = Some (PI / 4)).
  { cbn [Camera.simulate Camera.R Camera.tvec Camera.extrinsic
         Camera.from_intrinsics_extrinsics Camera.init
         CameraExtrinsic.simulate CameraExtrinsic.identity CameraExtrinsic.init
         CameraExtrinsic.R CameraExtrinsic.t RigidTransform.from_Rt
         RigidTransform.quat RigidTransform.tvec Quaternion.matrix
         Quaternion.to_homogeneous_matrix top3x3 eye3 zeros3 col3 mget get3
         row3 sub3].
    replace (1 - 0) with 1 by ring. replace (0 - 0) with 0 by ring.
    exact theta_diagonal. }
  split; [| split].
  - unfold check_visibility.
    change (Camera.fov Camera.simulate)
      with (Ok (atan (320 / 500) * 2, atan (240 / 500) * 2)).
    cbn [bind fst snd map]. rewrite Hth, Hmax.
    cbn [nan_ltb]. rewrite Rltb_true by lra. reflexivity.
  - exact Hth.
  - exists (atan (320 / 500) * 2), (atan (240 / 500) * 2).
    split; [reflexivity |]. rewrite Hmax. lra.
Qed.

(** ** Truncation to an integer *)

Lemma py_int_nonneg (x : R) : 0 <= x -> (0 <= py_int x)%Z.
Proof.
  intros Hx. unfold py_int. destruct (Rle_dec 0 x) as [_ | N]; [| contradiction].
  destruct (base_Int_part x) as [_ Hlow].
  assert (H : (-1 < Int_part x)%Z) by (apply lt_IZR; lra).
  lia.
Qed.

Lemma py_int_le (x : R) (n : Z) : x <= IZR n -> (py_int x <= n)%Z.
Proof.
  intros Hx. unfold py_int. destruct (Rle_dec 0 x) as [Hp | Hn].
  - destruct (base_Int_part x) as [Hup _]. apply le_IZR. lra.
  - destruct (base_Int_part (- x)) as [_ Hlow].
    assert (H : (- n - 1 < Int_part (- x))%Z).
    { apply lt_IZR. rewrite minus_IZR, opp_IZR. lra. }
    lia.
Qed.

Lemma py_int_mono_nonneg (x y : R) :
  0 <= x -> x <= y -> (py_int x <= py_int y)%Z.
Proof.
  intros Hx Hxy. unfold py_int.
  destruct (Rle_dec 0 x) as [_ | N]; [| contradiction].
  destruct (Rle_dec 0 y) as [_ | N]; [| lra].
  destruct (base_Int_part x) as [Hup _].
  destruct (base_Int_part y) as [_ Hlow].
  assert (H : (Int_part x < Int_part y + 1)%Z).
  { apply lt_IZR. rewrite plus_IZR. lra. }
  lia.
Qed.

Lemma py_int_IZR (n : Z) : py_int (IZR n) = n.
Proof.
  unfold py_int. destruct (Rle_dec 0 (IZR n)) as [Hp | Hn].
  - symmetry. apply Int_part_spec. lra.
  - assert (E : (- n)%Z = Int_part (- IZR n)).
    { apply Int_part_spec. rewrite opp_IZR. lra. }
    rewrite <- E. lia.
Qed.

(** ** The box along one axis *)

(** Along one image axis of length [n]: the clipped bounds [a0], [a1] of
    projections lying between [lo] and [hi], once their distance passes a
    non-negative minimum, are ordered and inside [[0, n - 1]]; so are the
    bounds rescaled about their middle by a factor [scale >= 0]. *)
Lemma axis_bounds (lo hi : R) (n : Z) (scale minsz : R) :
  let a0 := py_int (Rmax 0 lo) in
  let a1 := py_int (Rmin (IZR (n - 1)) hi) in
  let w := (scale - 1) * IZR (a1 - a0) / 2 in
  0 <= scale -> 0 <= minsz ->
  Rleb minsz (IZR (a1 - a0)) = true ->
  (0 <= a0 <= a1 /\ a1 <= n - 1)%Z /\
  (0 <= py_int (Rmax 0 (IZR a0 - w))
     <= py_int (Rmin (IZR a1 + w) (IZR (n - 1))) /\
   py_int (Rmin (IZR a1 + w) (IZR (n - 1))) <= n - 1)%Z.
Proof.
  intros a0 a1 w Hs Hm Hsz.
  apply Rleb_spec in Hsz.
  assert (H0 : (0 <= a0)%Z) by (apply py_int_nonneg, Rmax_l).
  assert (H1 : (a1 <= n - 1)%Z) by (apply py_int_le, Rmin_l).
  assert (H01 : (a0 <= a1)%Z).
  { assert (Hd : (0 <= a1 - a0)%Z) by (apply le_IZR; lra). lia. }
  split; [lia |].
  assert (R0 : 0 <= IZR a0) by (apply IZR_le in H0; exact H0).
  assert (R01 : IZR a0 <= IZR a1) by (apply IZR_le; exact H01).
  assert (R1 : IZR a1 <= IZR (n - 1)) by (apply IZR_le; exact H1).
  assert (Hw : - (IZR a1 - IZR a0) / 2 <= w).
  { unfold w. rewrite minus_IZR. nra. }
  assert (Hkey : Rmax 0 (IZR a0 - w) <= Rmin (IZR a1 + w) (IZR (n - 1))).
  { apply Rmax_lub; apply Rmin_glb; lra. }
  split; [split |].
  - apply py_int_nonneg, Rmax_l.
  - apply py_int_mono_nonneg; [apply Rmax_l | exact Hkey].
  - apply py_int_le, Rmin_r.
Qed.

(** ** C10: the box lies inside the image *)

Lemma shape_at_height (cam : Camera.t) (H W : Z) (rest : list Z) :
  Camera.shape cam = Some (H :: W :: rest) -> shape_at cam 0 = Ok H.
Proof. intros E. unfold shape_at. now rewrite E. Qed.

Lemma shape_at_width (cam : Camera.t) (H W : Z) (rest : list Z) :
  Camera.shape cam = Some (H :: W :: rest) -> shape_at cam 1 = Ok W.
Proof. intros E. unfold shape_at. now rewrite E. Qed.

(** C10. With image shape [(H, W, ...)], [scale >= 0] and non-negative
    minimum sizes, every box that [get_object_bbox] returns satisfies
    [0 <= left <= right <= W - 1] and [0 <= top <= bottom <= H - 1], for
    [scale = 1.0] as well as after the rescaling of the other branch. *)
Theorem bbox_within_image
    (Rodrigues : mat3 -> vec3)
    (projectPoints : list vec3 -> vec3 -> vec3 -> mat3 -> list R -> list (R * R))
    (cam : Camera.t) (H W : Z) (rest : list Z) (pts : list vec3)
    (subsample : Z) (scale min_height min_width : R)
    (pts2d : list (Z * Z)) (box : Box) (depth : option R) :
  Camera.shape cam = Some (H :: W :: rest) ->
  0 <= scale -> 0 <= min_height -> 0 <= min_width ->
  get_object_bbox Rodrigues projectPoints cam pts subsample scale
                  min_height min_width = Ok (Found pts2d box depth) ->
  (0 <= left box <= right box /\ right box <= W - 1)%Z /\
  (0 <= top box <= bottom box /\ bottom box <= H - 1)%Z.
Proof.
  intros Hshape Hs Hmh Hmw Hres.
  unfold get_object_bbox in Hres.
  rewrite (shape_at_height _ _ _ _ Hshape), (shape_at_width _ _ _ _ Hshape) in Hres.
  destruct (np.slice_step subsample pts) as [sub | e]; [| discriminate].
  cbn [bind] in Hres.
  destruct (np.amin (map fst _)) as [umin | e]; [| discriminate].
  cbn [bind] in Hres.
  destruct (np.amax (map fst _)) as [umax | e]; [| discriminate].
  cbn [bind] in Hres.
  destruct (np.amin (map snd _)) as [vmin | e]; [| discriminate].
  cbn [bind] in Hres.
  destruct (np.amax (map snd _)) as [vmax | e]; [| discriminate].
  cbn [bind] in Hres.
  match type of Hres with
  | (if ?c && ?h && ?w then _ else _) = _ =>
      destruct c; [| discriminate];
      destruct h eqn:Hh; [| discriminate];
      destruct w eqn:Hw; [| discriminate]
  end.
  cbn [andb] in Hres.
  destruct (nan_ltb _ _); [discriminate |].
  pose proof (axis_bounds umin umax W scale min_width Hs Hmw Hw) as [Bx Bx'].
  pose proof (axis_bounds vmin vmax H scale min_height Hs Hmh Hh) as [By By'].
  destruct (Req_dec_T scale 1) as [_ | _];
    injection Hres as _ <- _; cbn [left right top bottom]; split; assumption.
Qed.

(** ** C6: the no-result triple *)

Lemma amin_nonempty (l : list R) : l <> [] -> exists m, np.amin l = Ok m.
Proof. destruct l; [congruence | intros _; eexists; reflexivity]. Qed.

Lemma amax_nonempty (l : list R) : l <> [] -> exists m, np.amax l = Ok m.
Proof. destruct l; [congruence | intros _; eexists; reflexivity]. Qed.

Lemma map_nonempty {A B : Type} (f : A -> B) (l : list A) :
  l <> [] -> map f l <> [].
Proof. destruct l; [congruence | discriminate]. Qed.

(** The mask [valid] of the source holds exactly on the points within the
    image, so filtering by it leaves nothing of a list of outside points. *)
Lemma filter_outside (W H : Z) (l : list (R * R)) :
  Forall (fun p => ~ in_image W H p) l ->
  filter (fun p : R * R =>
            (Rleb 0 (fst p) && Rltb (fst p) (IZR W)) &&
            (Rleb 0 (snd p) && Rltb (snd p) (IZR H))) l = [].
Proof.
  induction 1 as [| p l Hp _ IH]; [reflexivity |].
  cbn [filter]. rewrite IH.
  destruct (_ && _) eqn:E; [| reflexivity].
  exfalso. apply Hp.
  apply andb_prop in E as [E1 E2].
  apply andb_prop in E1 as [E11 E12]. apply andb_prop in E2 as [E21 E22].
  apply Rleb_spec in E11, E21. apply Rltb_spec in E12, E22.
  unfold in_image. lra.
Qed.

(** C6, as stated, fails on the empty point cloud: none of its (no) points
    projects inside the image, and [get_object_bbox] raises [ValueError]
    when it takes the minimum of the empty array of projections. *)
Lemma bbox_of_empty_cloud_raises :
  Camera.shape vga_camera = Some [480; 640; 3]%Z /\
  np.slice_step 10 (@nil vec3) = Ok [] /\
  Forall (fun p => ~ in_image 640 480 p)
         (Camera.project no_Rodrigues pinhole_projectPoints vga_camera []) /\
  get_object_bbox no_Rodrigues pinhole_projectPoints vga_camera [] 10 1 10 10
    = Raise ValueError.
Proof.
  repeat split; try reflexivity. constructor.
Qed.

(** C6 (amended). Let the camera have its image shape set and let
    [projectPoints] return one image point per input point.  If the
    subsampled cloud is not empty and none of its points projects within
    the image, or if the median camera-frame depth of the subsampled points
    is negative, [get_object_bbox] returns the no-result triple and does
    not raise. *)
Theorem bbox_no_result
    (Rodrigues : mat3 -> vec3)
    (projectPoints : list vec3 -> vec3 -> vec3 -> mat3 -> list R -> list (R * R))
    (cam : Camera.t) (H W : Z) (rest : list Z) (pts sub : list vec3)
    (subsample : Z) (scale min_height min_width : R) :
  (forall X r t K0 D0, length (projectPoints X r t K0 D0) = length X) ->
  Camera.shape cam = Some (H :: W :: rest) ->
  np.slice_step subsample pts = Ok sub ->
  (sub <> [] /\
   Forall (fun p => ~ in_image W H p)
          (Camera.project Rodrigues projectPoints cam sub))
  \/
  (exists d : R,
     np.median (map (fun X => get3 X I2)
                    (RigidTransform.mul (Camera.extrinsic cam) sub)) = Some d /\
     d < 0) ->
  get_object_bbox Rodrigues projectPoints cam pts subsample scale
                  min_height min_width = Ok NoResult.
Proof.
  intros Hlen Hshape Hslice Hcase.
  assert (Hsub : sub <> []).
  { destruct Hcase as [[Hne _] | [d [Hmed _]]]; [exact Hne |].
    intros ->. discriminate Hmed. }
  assert (Hproj : Camera.project Rodrigues projectPoints cam sub <> []).
  { intros E. apply (f_equal (@length _)) in E.
    unfold Camera.project in E.
    destruct (RigidTransform.to_Rt _) as [R0 t0].
    rewrite Hlen in E. destruct sub; [congruence | discriminate]. }
  unfold get_object_bbox. rewrite Hslice. cbn [bind].
  destruct (amin_nonempty _ (map_nonempty fst _ Hproj)) as [umin ->].
  destruct (amax_nonempty _ (map_nonempty fst _ Hproj)) as [umax ->].
  destruct (amin_nonempty _ (map_nonempty snd _ Hproj)) as [vmin ->].
  destruct (amax_nonempty _ (map_nonempty snd _ Hproj)) as [vmax ->].
  rewrite (shape_at_height _ _ _ _ Hshape), (shape_at_width _ _ _ _ Hshape).
  cbn [bind].
  destruct Hcase as [[_ Hout] | [d [Hmed Hd]]].
  - rewrite (filter_outside _ _ _ Hout). reflexivity.
  - rewrite Hmed. cbn [nan_ltb]. rewrite (Rltb_true _ _ Hd).
    destruct (_ && _ && _); reflexivity.
Qed.

Lemma bbox_no_result_witness :
  get_object_bbox no_Rodrigues pinhole_projectPoints vga_camera
                  [(10, 0, 1)] 10 1 10 10 = Ok NoResult.
Proof.
  apply (bbox_no_result no_Rodrigues pinhole_projectPoints vga_camera
           480 640 [3%Z] [(10, 0, 1)] [(10, 0, 1)]).
  - intros X r t K0 D0. unfold pinhole_projectPoints. apply length_map.
  - reflexivity.
  - reflexivity.
  - left. split; [discriminate |].
    constructor; [| constructor].
    unfold in_image. cbn. lra.
Defined.

(** ** A run of [get_object_bbox] that returns a box *)

(** Two points in front of the camera, projected by the pinhole stand-in. *)
Lemma project_two_points :
  Camera.project no_Rodrigues pinhole_projectPoints vga_camera
                 [(0, 0, 1); (1 / 10, 1 / 10, 1)] = [(320, 240); (370, 290)].
Proof.
  cbv [Camera.project RigidTransform.to_Rt vga_camera Camera.init Camera.extrinsic
       Camera.K Camera.D Camera.intrinsic CameraExtrinsic.init
       RigidTransform.from_Rt RigidTransform.quat RigidTransform.tvec
       Quaternion.matrix CameraIntrinsic.init CameraIntrinsic.K
       CameraIntrinsic.D pinhole_projectPoints map add3 zeros3 construct_K
       mget get3 row3].
  repeat f_equal; lra.
Qed.

Lemma median_two (a b : R) : np.median [a; b] = Some ((a + b) / 2).
Proof.
  unfold np.median, np.sort. cbn.
  destruct (Rle_dec a b); cbn; f_equal; lra.
Qed.

Lemma bbox_of_two_points :
  get_object_bbox no_Rodrigues pinhole_projectPoints vga_camera
                  [(0, 0, 1); (1 / 10, 1 / 10, 1)] 1 2 10 10
  = Ok (Found [(320, 240); (370, 290)]%Z
              {| left := 295; right := 395; top := 215; bottom := 315 |}
              (Some 1)).
Proof.
  unfold get_object_bbox.
  change (np.slice_step 1 [(0, 0, 1); (1 / 10, 1 / 10, 1)])
    with (Ok [(0, 0, 1); (1 / 10, 1 / 10, 1)]).
  cbn [bind]. rewrite project_two_points.
  change (shape_at vga_camera 1) with (Ok 640%Z).
  change (shape_at vga_camera 0) with (Ok 480%Z).
  cbn [map fst snd np.amin np.amax fold_left bind].
  rewrite (Rmin_left 320 370), (Rmax_right 320 370) by lra.
  rewrite (Rmin_left 240 290), (Rmax_right 240 290) by lra.
  rewrite (Rmax_right 0 320), (Rmax_right 0 240) by lra.
  change (640 - 1)%Z with 639%Z. change (480 - 1)%Z with 479%Z.
  rewrite (Rmin_right 639 370), (Rmin_right 479 290) by lra.
  rewrite !py_int_IZR.
  change (290 - 240)%Z with 50%Z. change (370 - 320)%Z with 50%Z.
  cbn [filter fst snd].
  rewrite !Rleb_true, !Rltb_true by lra.
  cbn [andb map fst snd]. rewrite !median_two. cbn [nan_leb nan_ltb].
  rewrite !Rleb_true, !Rltb_true by lra.
  cbn [andb RigidTransform.mul map get3 add3 mvmul3 vga_camera Camera.init
       Camera.extrinsic CameraExtrinsic.init RigidTransform.from_Rt
       RigidTransform.quat RigidTransform.tvec Quaternion.matrix eye3 zeros3
       dot3].
  rewrite median_two. cbn [nan_ltb]. rewrite Rltb_false by lra.
  destruct (Req_dec_T 2 1) as [E | _]; [lra |].
  rewrite (Rmax_right 0 (320 - (2 - 1) * 50 / 2)) by lra.
  rewrite (Rmax_right 0 (240 - (2 - 1) * 50 / 2)) by lra.
  rewrite (Rmin_left (370 + (2 - 1) * 50 / 2) 639) by lra.
  rewrite (Rmin_left (290 + (2 - 1) * 50 / 2) 479) by lra.
  replace (320 - (2 - 1) * 50 / 2) with (IZR 295) by lra.
  replace (240 - (2 - 1) * 50 / 2) with (IZR 215) by lra.
  replace (370 + (2 - 1) * 50 / 2) with (IZR 395) by lra.
  replace (290 + (2 - 1) * 50 / 2) with (IZR 315) by lra.
  rewrite !py_int_IZR.
  do 3 f_equal. lra.
Qed.

Lemma bbox_within_image_witness :
  let box := {| left := 295; right := 395; top := 215; bottom := 315 |} in
  (0 <= left box <= right box /\ right box <= 640 - 1)%Z /\
  (0 <= top box <= bottom box /\ bottom box <= 480 - 1)%Z.
Proof.
  intros box.
  apply (bbox_within_image no_Rodrigues pinhole_projectPoints vga_camera
           480 640 [3%Z] [(0, 0, 1); (1 / 10, 1 / 10, 1)] 1 2 10 10
           [(320, 240); (370, 290)]%Z box (Some 1)).
  - reflexivity.
  - lra.
  - lra.
  - lra.
  - exact bbox_of_two_points.
Defined.

(** * Further properties of the code *)

(** ** Calibration parameters *)

(** X1. The four calibration parameters survive the trip through
    [construct_K] and the constructor: [from_calib_params] stores them as
    [fx], [fy], [cx], [cy], with no distortion and no shape.  The other way
    round, rebuilding a matrix from the stored parameters of a constructed
    object gives back its [K] exactly when [K] has the calibration form
    (zero skew, zero lower triangle, [K[2,2] = 1]). *)
Theorem calib_params_round_trip
    (fx0 fy0 cx0 cy0 : R) (K0 : mat3) (D0 : list R) (shape0 : option (list Z)) :
  let c := CameraIntrinsic.from_calib_params fx0 fy0 cx0 cy0 in
  let c' := CameraIntrinsic.init K0 D0 shape0 in
  (CameraIntrinsic.fx c = fx0 /\ CameraIntrinsic.fy c = fy0 /\
   CameraIntrinsic.cx c = Some cx0 /\ CameraIntrinsic.cy c = Some cy0 /\
   CameraIntrinsic.D c = [0; 0; 0; 0] /\ CameraIntrinsic.shape c = None)
  /\
  (construct_K (CameraIntrinsic.fx c') (CameraIntrinsic.fy c')
               (mget K0 I0 I2) (mget K0 I1 I2) = K0
   <->
   mget K0 I0 I1 = 0 /\ mget K0 I1 I0 = 0 /\ mget K0 I2 I0 = 0 /\
   mget K0 I2 I1 = 0 /\ mget K0 I2 I2 = 1).
Proof.
  cbv zeta. split; [repeat split; reflexivity |].
  destruct K0 as [[[[k00 k01] k02] [[k10 k11] k12]] [[k20 k21] k22]].
  cbv [construct_K CameraIntrinsic.init CameraIntrinsic.fx CameraIntrinsic.fy
       mget get3 row3].
  split.
  - intros E. injection E as <- <- <- <- <-. repeat split; reflexivity.
  - intros (-> & -> & -> & -> & ->). reflexivity.
Qed.

(** ** Field of view *)

(** Floor division of two positive numbers: not negative, and zero when
    the dividend is the smaller one. *)
Lemma floor_quotient_nonneg (x y : R) :
  0 < x -> 0 < y -> 0 <= IZR (Int_part (x / y)).
Proof.
  intros Hx Hy.
  assert (Hq : 0 < x / y) by (apply Rdiv_lt_0_compat; assumption).
  destruct (base_Int_part (x / y)) as [_ Hlow].
  assert (H : (-1 < Int_part (x / y))%Z) by (apply lt_IZR; lra).
  apply IZR_le. lia.
Qed.

Lemma floor_quotient_zero (x y : R) :
  0 < x -> x < y -> Int_part (x / y) = 0%Z.
Proof.
  intros Hx Hxy. symmetry. apply Int_part_spec.
  assert (Hq : 0 < x / y) by (apply Rdiv_lt_0_compat; lra).
  assert (Hq1 : x / y < 1).
  { apply (Rmult_lt_reg_r y); [lra |].
    unfold Rdiv. rewrite Rmult_assoc, Rinv_l by lra. lra. }
  lra.
Qed.

(** X2. With the principal point set and [fx], [fy], [cx], [cy] all
    positive, both field-of-view angles lie in [[0, PI)].  They are
    strictly positive when the calibration matrix holds floats.  When it
    holds integers the quotients are floor divisions, and a principal
    point below the focal lengths ([cx < fx], [cy < fy]) gives the angles
    [(0, 0)]. *)
Theorem fov_between_0_and_PI (c : CameraIntrinsic.t) (x y : R) :
  CameraIntrinsic.cx c = Some x ->
  CameraIntrinsic.cy c = Some y ->
  0 < CameraIntrinsic.fx c -> 0 < CameraIntrinsic.fy c ->
  0 < x -> 0 < y ->
  exists ax ay : R,
    CameraIntrinsic.fov c = Ok (ax, ay) /\
    (0 <= ax < PI /\ 0 <= ay < PI) /\
    (CameraIntrinsic.int_dtype c = false -> 0 < ax /\ 0 < ay) /\
    (CameraIntrinsic.int_dtype c = true ->
     x < CameraIntrinsic.fx c -> y < CameraIntrinsic.fy c ->
     ax = 0 /\ ay = 0).
Proof.
  intros Hx Hy Hfx Hfy Hx0 Hy0.
  unfold CameraIntrinsic.fov. rewrite Hx, Hy. cbn [num bind].
  eexists. eexists. split; [reflexivity |].
  assert (Hqx : 0 < x / CameraIntrinsic.fx c) by (apply Rdiv_lt_0_compat; lra).
  assert (Hqy : 0 < y / CameraIntrinsic.fy c) by (apply Rdiv_lt_0_compat; lra).
  pose proof (floor_quotient_nonneg x _ Hx0 Hfx) as Hix.
  pose proof (floor_quotient_nonneg y _ Hy0 Hfy) as Hiy.
  assert (Hmono : forall q, 0 <= q -> 0 <= atan q).
  { intros q [Hq | <-]; [| rewrite atan_0; lra].
    apply atan_increasing in Hq. rewrite atan_0 in Hq. lra. }
  split; [| split].
  - unfold CameraIntrinsic.py2_div.
    destruct (CameraIntrinsic.int_dtype c).
    + pose proof (atan_bound (IZR (Int_part (x / CameraIntrinsic.fx c)))).
      pose proof (atan_bound (IZR (Int_part (y / CameraIntrinsic.fy c)))).
      pose proof (Hmono _ Hix). pose proof (Hmono _ Hiy). lra.
    + pose proof (atan_bound (x / CameraIntrinsic.fx c)).
      pose proof (atan_bound (y / CameraIntrinsic.fy c)).
      pose proof (Hmono _ (Rlt_le _ _ Hqx)).
      pose proof (Hmono _ (Rlt_le _ _ Hqy)). lra.
  - intros ->. unfold CameraIntrinsic.py2_div.
    apply atan_increasing in Hqx, Hqy. rewrite atan_0 in Hqx, Hqy. lra.
  - intros -> Hxf Hyf. unfold CameraIntrinsic.py2_div.
    rewrite (floor_quotient_zero x _ Hx0 Hxf), (floor_quotient_zero y _ Hy0 Hyf).
    rewrite atan_0. lra.
Qed.

Lemma fov_between_0_and_PI_witness :
  let c := CameraIntrinsic.init_int
             ((500, 0, 320), (0, 500, 240), (0, 0, 1))%Z
             CameraIntrinsic.default_D None in
  exists ax ay : R,
    CameraIntrinsic.fov c = Ok (ax, ay) /\
    (0 <= ax < PI /\ 0 <= ay < PI) /\
    (CameraIntrinsic.int_dtype c = false -> 0 < ax /\ 0 < ay) /\
    (CameraIntrinsic.int_dtype c = true ->
     320 < CameraIntrinsic.fx c -> 240 < CameraIntrinsic.fy c ->
     ax = 0 /\ ay = 0).
Proof.
  intros c.
  apply (fov_between_0_and_PI c 320 240).
  - reflexivity.
  - reflexivity.
  - cbn. lra.
  - cbn. lra.
  - lra.
  - lra.
Defined.

(** X3. A longer focal length gives a narrower field of view: for a
    positive principal point, raising the focal length from [f] to [f']
    lowers both angles. *)
Theorem fov_decreases_with_focal_length (f f' cx0 cy0 ax ay ax' ay' : R) :
  0 < f -> f < f' -> 0 < cx0 -> 0 < cy0 ->
  CameraIntrinsic.fov (CameraIntrinsic.from_calib_params f f cx0 cy0)
    = Ok (ax, ay) ->
  CameraIntrinsic.fov (CameraIntrinsic.from_calib_params f' f' cx0 cy0)
    = Ok (ax', ay') ->
  ax' < ax /\ ay' < ay.
Proof.
  intros Hf Hff Hcx Hcy E E'.
  cbn in E, E'. injection E as <- <-. injection E' as <- <-.
  assert (Hinv : / f' < / f) by (apply Rinv_lt_contravar; nra).
  assert (Hx : cx0 / f' < cx0 / f) by (unfold Rdiv; nra).
  assert (Hy : cy0 / f' < cy0 / f) by (unfold Rdiv; nra).
  apply atan_increasing in Hx, Hy. lra.
Qed.

Lemma fov_decreases_with_focal_length_witness :
  atan (320 / 600) * 2 < atan (320 / 500) * 2 /\
  atan (240 / 600) * 2 < atan (240 / 500) * 2.
Proof.
  apply (fov_decreases_with_focal_length 500 600 320 240).
  - lra.
  - lra.
  - lra.
  - lra.
  - reflexivity.
  - reflexivity.
Defined.

(** ** The projection matrix *)

(** [P] on a homogeneous point, unfolded into [K], [R] and [t]. *)
Lemma P_apply (c : Camera.t) (X : vec3) :
  mvmul34 (Camera.P c) (homogeneous X) =
    mvmul3 (Camera.K c) (add3 (mvmul3 (Camera.R c) X) (Camera.tvec c)).
Proof.
  destruct c as [i [[M] tv]].
  destruct i as [K0 D0 cx0 cy0 fx0 fy0 sh].
  destruct K0 as [[[[k00 k01] k02] [[k10 k11] k12]] [[k20 k21] k22]].
  destruct M as [[[[r00 r01] r02] [[r10 r11] r12]] [[r20 r21] r22]].
  destruct tv as [[t0 t1] t2]. destruct X as [[x y] z].
  cbv [Camera.P Camera.K Camera.R Camera.tvec Camera.intrinsic
       Camera.extrinsic CameraIntrinsic.K CameraExtrinsic.R
       RigidTransform.to_homogeneous_matrix RigidTransform.quat
       RigidTransform.tvec Quaternion.to_homogeneous_matrix
       Quaternion.matrix top3 top3x3 mmul3_34 cols34 mvmul34 mvmul3
       homogeneous dot3 dot4 add3].
  f_equal; [f_equal |]; ring.
Qed.

Lemma R_of_init (K0 R0 : mat3) (t0 : vec3) (D0 : list R)
    (shape0 : option (list Z)) :
  Camera.R (Camera.init K0 R0 t0 D0 shape0) = R0.
Proof.
  destruct R0 as [[[[r00 r01] r02] [[r10 r11] r12]] [[r20 r21] r22]].
  reflexivity.
Qed.

(** X4. For every camera, [P] applied to a world point in homogeneous
    coordinates is [K] applied to the point taken into the camera frame,
    [R X + t], the frame into which [camera * pts] takes the points. *)
Theorem P_is_K_of_camera_frame (c : Camera.t) (X Xc : vec3) :
  RigidTransform.mul (Camera.extrinsic c) [X] = [Xc] ->
  mvmul34 (Camera.P c) (homogeneous X) = mvmul3 (Camera.K c) Xc.
Proof.
  intros E. rewrite P_apply.
  cbn [RigidTransform.mul map] in E. injection E as <-.
  destruct c as [i [[M] tv]].
  destruct M as [[[[r00 r01] r02] [[r10 r11] r12]] [[r20 r21] r22]].
  reflexivity.
Qed.

Lemma P_is_K_of_camera_frame_witness :
  mvmul34 (Camera.P vga_camera) (homogeneous (1, 2, 3)) =
  mvmul3 (Camera.K vga_camera) (add3 (mvmul3 eye3 (1, 2, 3)) zeros3).
Proof.
  apply (P_is_K_of_camera_frame vga_camera (1, 2, 3)
           (add3 (mvmul3 eye3 (1, 2, 3)) zeros3)).
  reflexivity.
Defined.

(** X5. The pinhole formula.  A camera built from
    [construct_K fx fy cx cy] and a pose [(R, t)] sends a world point whose
    camera-frame coordinates are [(x, y, z)], [z <> 0], to the image point
    [(fx x/z + cx, fy y/z + cy)]. *)
Theorem P_pinhole_formula
    (fx0 fy0 cx0 cy0 : R) (R0 : mat3) (t0 : vec3) (D0 : list R)
    (shape0 : option (list Z)) (X : vec3) (x y z : R) :
  add3 (mvmul3 R0 X) t0 = (x, y, z) ->
  z <> 0 ->
  projects_to
    (Camera.P (Camera.init (construct_K fx0 fy0 cx0 cy0) R0 t0 D0 shape0))
    X (fx0 * (x / z) + cx0, fy0 * (y / z) + cy0).
Proof.
  intros Hframe Hz.
  unfold projects_to. rewrite P_apply, R_of_init.
  change (Camera.tvec (Camera.init (construct_K fx0 fy0 cx0 cy0) R0 t0 D0 shape0))
    with t0.
  rewrite Hframe.
  cbv [Camera.K Camera.init Camera.intrinsic CameraIntrinsic.init
       CameraIntrinsic.K construct_K mvmul3 dot3 fst snd].
  repeat split.
  - intros E. apply Hz. lra.
  - field. lra.
  - field. lra.
Qed.

Lemma P_pinhole_formula_witness :
  projects_to
    (Camera.P (Camera.init (construct_K 500 500 320 240) eye3 (0, 0, 2)
                           CameraIntrinsic.default_D None))
    (1, 1, 0) (500 * (1 / 2) + 320, 500 * (1 / 2) + 240).
Proof.
  apply (P_pinhole_formula 500 500 320 240 eye3 (0, 0, 2)
           CameraIntrinsic.default_D None (1, 1, 0) 1 1 2).
  - cbv [eye3 mvmul3 dot3 add3]. f_equal; [f_equal |]; lra.
  - lra.
Defined.

(** ** Building a depth camera *)

Lemma take_every_length {A : Type} (k : nat) (l : list A) :
  forall c : nat,
    length (np.take_every k c l) = ((length l + k - c) / S k)%nat.
Proof.
  induction l as [| x l IH]; intros c.
  - cbn [np.take_every length]. symmetry. apply Nat.div_small. lia.
  - destruct c as [| c]; cbn [np.take_every length].
    + rewrite IH.
      replace (length l + k - k)%nat with (length l) by lia.
      replace (S (length l) + k - 0)%nat with (length l + 1 * S k)%nat by lia.
      rewrite Nat.div_add by lia. lia.
    + rewrite IH. f_equal.
Qed.

Lemma slice_step_length {A : Type} (step : Z) (l sub : list A) :
  np.slice_step step l = Ok sub ->
  length sub = ((length l + Z.abs_nat step - 1) / Z.abs_nat step)%nat.
Proof.
  destruct step as [| p | p]; cbn [np.slice_step]; intros E;
    [discriminate | |]; injection E as <-;
    rewrite take_every_length, ?length_rev;
    cbn [Z.abs_nat];
    replace (S (Pos.to_nat p - 1)) with (Pos.to_nat p) by lia;
    f_equal; lia.
Qed.

(** The mesh built for a non-zero stride. *)
Lemma build_mesh_ok (self : CameraIntrinsic.t) (skip0 H W : Z) (x y : R) :
  CameraIntrinsic.cx self = Some x ->
  CameraIntrinsic.cy self = Some y ->
  skip0 <> 0%Z ->
  exists xs2 ys2 : list R,
    np.slice_step skip0
      (map (fun u => (u - x) * (1 / CameraIntrinsic.fx self))
           (np.arange (Z.to_nat W))) = Ok xs2 /\
    np.slice_step skip0
      (map (fun v => (v - y) * (1 / CameraIntrinsic.fx self))
           (np.arange (Z.to_nat H))) = Ok ys2 /\
    DepthCamera._build_mesh self skip0 [H; W] = Ok (np.meshgrid xs2 ys2).
Proof.
  intros Hx Hy Hs. unfold DepthCamera._build_mesh. rewrite Hx, Hy.
  cbn [num bind].
  destruct skip0 as [| p | p]; [congruence | |];
    cbn [np.slice_step bind]; eexists; eexists; repeat split; reflexivity.
Qed.

(** A pair for the shape and a non-zero stride are all the constructor
    needs. *)
Lemma depth_camera_init_ok
    (K0 : mat3) (H W skip0 : Z) (D0 : list R) :
  skip0 <> 0%Z ->
  exists dc : DepthCamera.t,
    DepthCamera.init K0 [H; W] skip0 D0 = Ok dc /\
    DepthCamera.skip dc = skip0 /\
    CameraIntrinsic.shape (DepthCamera.base dc) = Some [H; W] /\
    CameraIntrinsic.K (DepthCamera.base dc) = K0.
Proof.
  intros Hs. unfold DepthCamera.init.
  match goal with
  | |- context [DepthCamera._build_mesh ?self _ _] =>
      destruct (build_mesh_ok self skip0 H W _ _ eq_refl eq_refl Hs)
        as (xs2 & ys2 & _ & _ & ->)
  end.
  cbn [bind]. eexists. repeat split.
Qed.

(** X6. The constructor of [DepthCamera] fails with [ValueError] on a zero
    stride and on a shape that is not a pair; on a pair and any other
    stride, negative ones included, it returns a camera that keeps the
    shape and the stride it was given. *)
Theorem depth_camera_init_outcome
    (K0 : mat3) (shape0 : list Z) (skip0 : Z) (D0 : list R) :
  (length shape0 <> 2%nat \/ skip0 = 0%Z ->
   DepthCamera.init K0 shape0 skip0 D0 = Raise ValueError)
  /\
  (length shape0 = 2%nat /\ skip0 <> 0%Z ->
   exists dc : DepthCamera.t,
     DepthCamera.init K0 shape0 skip0 D0 = Ok dc /\
     DepthCamera.skip dc = skip0 /\
     CameraIntrinsic.shape (DepthCamera.base dc) = Some shape0 /\
     CameraIntrinsic.K (DepthCamera.base dc) = K0).
Proof.
  split.
  - intros [Hlen | ->].
    + destruct shape0 as [| H [| W [| z rest]]]; try reflexivity.
      cbn in Hlen. congruence.
    + destruct shape0 as [| H [| W [| z rest]]]; reflexivity.
  - intros [Hlen Hs].
    destruct shape0 as [| H [| W [| z rest]]]; try discriminate Hlen.
    apply depth_camera_init_ok. exact Hs.
Qed.

Lemma depth_camera_init_outcome_witness :
  DepthCamera.init K_500_400 [480; 640]%Z 0 CameraIntrinsic.default_D
    = Raise ValueError /\
  exists dc : DepthCamera.t,
    DepthCamera.init K_500_400 [480; 640]%Z (-2) CameraIntrinsic.default_D
      = Ok dc /\
    DepthCamera.skip dc = (-2)%Z /\
    CameraIntrinsic.shape (DepthCamera.base dc) = Some [480; 640]%Z /\
    CameraIntrinsic.K (DepthCamera.base dc) = K_500_400.
Proof.
  split.
  - apply (proj1 (depth_camera_init_outcome K_500_400 [480; 640]%Z 0
                    CameraIntrinsic.default_D)).
    right. reflexivity.
  - apply (proj2 (depth_camera_init_outcome K_500_400 [480; 640]%Z (-2)
                    CameraIntrinsic.default_D)).
    split; [reflexivity | discriminate].
Defined.

(** X7. The two grids of the mesh have one shape,
    [(ceil(H/|skip|), ceil(W/|skip|))]; with the stride 1 of
    [KinectDepthCamera] that is the image shape [(H, W)] itself. *)
Theorem mesh_shape
    (K0 : mat3) (H W skip0 : Z) (D0 : list R) (dc : DepthCamera.t) :
  DepthCamera.init K0 [H; W] skip0 D0 = Ok dc ->
  let s := Z.abs_nat skip0 in
  np.shape (DepthCamera.xs dc) =
    [((Z.to_nat H + s - 1) / s)%nat; ((Z.to_nat W + s - 1) / s)%nat] /\
  np.shape (DepthCamera.ys dc) = np.shape (DepthCamera.xs dc) /\
  (skip0 = 1%Z ->
   np.shape (DepthCamera.xs dc) = [Z.to_nat H; Z.to_nat W]).
Proof.
  intros Hinit s.
  assert (Hs : skip0 <> 0%Z).
  { intros ->. discriminate Hinit. }
  unfold DepthCamera.init in Hinit.
  match type of Hinit with
  | context [DepthCamera._build_mesh ?self _ _] =>
      destruct (build_mesh_ok self skip0 H W _ _ eq_refl eq_refl Hs)
        as (xs2 & ys2 & Ex & Ey & Em)
  end.
  rewrite Em in Hinit. cbn [bind] in Hinit. injection Hinit as <-.
  apply slice_step_length in Ex, Ey.
  unfold np.arange in Ex, Ey. rewrite !length_map, length_seq in Ex, Ey.
  cbn [DepthCamera.xs DepthCamera.ys np.meshgrid fst snd np.shape].
  rewrite Ex, Ey. fold s.
  split; [reflexivity | split; [reflexivity |]].
  intros ->. subst s. cbn [Z.abs_nat Pos.to_nat Pos.iter_op].
  rewrite !Nat.add_sub, !Nat.div_1_r. reflexivity.
Qed.

Lemma mesh_shape_witness :
  exists dc : DepthCamera.t,
    KinectDepthCamera kinect_K_depth [480; 640]%Z = Ok dc /\
    np.shape (DepthCamera.xs dc) = [480; 640]%nat /\
    np.shape (DepthCamera.ys dc) = [480; 640]%nat.
Proof.
  destruct (depth_camera_init_ok kinect_K_depth 480 640 1
              CameraIntrinsic.default_D)
    as (dc & Hdc & _); [discriminate |].
  exists dc. split; [exact Hdc |].
  destruct (mesh_shape kinect_K_depth 480 640 1 CameraIntrinsic.default_D dc Hdc)
    as (_ & Hy & H1).
  rewrite Hy. split; apply H1; reflexivity.
Defined.

(** ** Reconstruction *)

(** X8. What [reconstruct] returns on a camera built with a positive
    stride and [fx <> 0]: at entry [(i, j)] of the mesh, the depth [d] times
    the ray [((skip j - cx) / fx, (skip i - cy) / fx, 1)].  Both ray
    components are scaled by [1/fx]; [fy] does not enter the result. *)
Theorem reconstruct_point
    (K0 : mat3) (H W skip0 : Z) (D0 : list R)
    (dc : DepthCamera.t) (depth out : np.ndarray) (rows cols i j : nat) :
  (0 < skip0)%Z ->
  mget K0 I0 I0 <> 0 ->
  DepthCamera.init K0 [H; W] skip0 D0 = Ok dc ->
  DepthCamera.reconstruct dc depth = Ok out ->
  np.shape (DepthCamera.xs dc) = [rows; cols] ->
  (i < rows)%nat -> (j < cols)%nat ->
  let d := np.item depth [i; j] in
  let ray_x := (IZR skip0 * INR j - mget K0 I0 I2) / mget K0 I0 I0 in
  let ray_y := (IZR skip0 * INR i - mget K0 I1 I2) / mget K0 I0 I0 in
  np.item out [i; j; 0%nat] = ray_x * d /\
  np.item out [i; j; 1%nat] = ray_y * d /\
  np.item out [i; j; 2%nat] = d.
Proof.
  intros Hs _ Hinit Hrec Hshape Hi Hj. cbv zeta.
  exact (reconstruct_entries K0 H W skip0 D0 dc depth out rows cols i j
           Hs Hinit Hrec Hshape Hi Hj).
Qed.

(** A camera with focal length 500 on both axes over a 2x2 image, and its
    reconstruction of a depth map of ones. *)
Lemma square_pixel_run :
  exists (dc : DepthCamera.t) (out : np.ndarray),
    DepthCamera.init (construct_K 500 500 0 0) [2; 2]%Z 1
                     CameraIntrinsic.default_D = Ok dc /\
    DepthCamera.reconstruct dc (ones [2; 2]%nat) = Ok out /\
    np.shape (DepthCamera.xs dc) = [2; 2]%nat.
Proof.
  eexists. eexists. repeat split.
Qed.

Lemma reconstruct_point_witness :
  exists out : np.ndarray,
    np.item out [1; 1; 0]%nat = (1 * INR 1 - 0) / 500 * 1 /\
    np.item out [1; 1; 1]%nat = (1 * INR 1 - 0) / 500 * 1 /\
    np.item out [1; 1; 2]%nat = 1.
Proof.
  destruct square_pixel_run as (dc & out & Hdc & Hout & Hsh).
  exists out.
  apply (reconstruct_point (construct_K 500 500 0 0) 2 2 1
           CameraIntrinsic.default_D dc (ones [2; 2]%nat) out 2 2 1 1).
  - lia.
  - cbn. lra.
  - exact Hdc.
  - exact Hout.
  - exact Hsh.
  - lia.
  - lia.
Defined.

(** X9. Round trip with the projection, for square pixels.  When
    [fx = fy = f <> 0], the point reconstructed at entry [(i, j)] from a
    non-zero depth is sent back by the projection matrix of the camera with
    the same [K] at the identity pose to the pixel [(skip j, skip i)] it
    came from. *)
Theorem reconstruct_then_project
    (f cx0 cy0 : R) (H W skip0 : Z) (D0 : list R)
    (dc : DepthCamera.t) (depth out : np.ndarray) (rows cols i j : nat) :
  (0 < skip0)%Z ->
  f <> 0 ->
  DepthCamera.init (construct_K f f cx0 cy0) [H; W] skip0 D0 = Ok dc ->
  DepthCamera.reconstruct dc depth = Ok out ->
  np.shape (DepthCamera.xs dc) = [rows; cols] ->
  (i < rows)%nat -> (j < cols)%nat ->
  np.item depth [i; j] <> 0 ->
  projects_to
    (Camera.P (Camera.init (construct_K f f cx0 cy0) eye3 zeros3 D0 None))
    (np.item out [i; j; 0%nat], np.item out [i; j; 1%nat],
     np.item out [i; j; 2%nat])
    (IZR skip0 * INR j, IZR skip0 * INR i).
Proof.
  intros Hs Hf Hinit Hrec Hshape Hi Hj Hd.
  destruct (reconstruct_entries _ H W skip0 D0 dc depth out rows cols i j
              Hs Hinit Hrec Hshape Hi Hj) as (-> & -> & ->).
  cbv [construct_K mget get3 row3].
  unfold projects_to. rewrite P_apply, R_of_init.
  cbv [Camera.tvec Camera.K Camera.init Camera.intrinsic Camera.extrinsic
       CameraExtrinsic.init RigidTransform.from_Rt RigidTransform.tvec
       CameraIntrinsic.init CameraIntrinsic.K construct_K
       eye3 zeros3 mvmul3 dot3 add3 fst snd].
  repeat split.
  - intros E. apply Hd. lra.
  - field. split; assumption.
  - field. split; assumption.
Qed.

Lemma reconstruct_then_project_witness :
  exists out : np.ndarray,
    projects_to
      (Camera.P (Camera.init (construct_K 500 500 0 0) eye3 zeros3
                             CameraIntrinsic.default_D None))
      (np.item out [1; 1; 0]%nat, np.item out [1; 1; 1]%nat,
       np.item out [1; 1; 2]%nat)
      (1 * INR 1, 1 * INR 1).
Proof.
  destruct square_pixel_run as (dc & out & Hdc & Hout & Hsh).
  exists out.
  apply (reconstruct_then_project 500 0 0 2 2 1 CameraIntrinsic.default_D
           dc (ones [2; 2]%nat) out 2 2 1 1).
  - lia.
  - lra.
  - exact Hdc.
  - exact Hout.
  - exact Hsh.
  - lia.
  - lia.
  - cbn. lra.
Defined.

(** X10. A negative stride is accepted and flips the mesh: with
    [skip = -s], column [j] of the mesh carries the ray of pixel column
    [W - 1 - s j] and row [i] that of pixel row [H - 1 - s i]. *)
Theorem negative_stride_flips_mesh
    (K0 : mat3) (H W skip0 : Z) (D0 : list R)
    (dc : DepthCamera.t) (rows cols i j : nat) :
  (skip0 < 0)%Z ->
  mget K0 I0 I0 <> 0 ->
  DepthCamera.init K0 [H; W] skip0 D0 = Ok dc ->
  np.shape (DepthCamera.xs dc) = [rows; cols] ->
  (i < rows)%nat -> (j < cols)%nat ->
  np.item (DepthCamera.xs dc) [i; j] =
    (IZR W - 1 - IZR (- skip0) * INR j - mget K0 I0 I2) / mget K0 I0 I0 /\
  np.item (DepthCamera.ys dc) [i; j] =
    (IZR H - 1 - IZR (- skip0) * INR i - mget K0 I1 I2) / mget K0 I0 I0.
Proof.
  intros Hskip _ Hinit Hshape Hi Hj.
  destruct skip0 as [| p | p]; try lia.
  unfold DepthCamera.init, DepthCamera._build_mesh in Hinit.
  cbn in Hinit. injection Hinit as <-.
  cbn in Hshape. injection Hshape as <- <-.
  cbn [DepthCamera.xs DepthCamera.ys np.meshgrid fst snd np.item].
  pose proof (take_every_index _ _ _ _ Hi) as Hi'.
  pose proof (take_every_index _ _ _ _ Hj) as Hj'.
  rewrite length_rev, length_map in Hi', Hj'. unfold np.arange in Hi', Hj'.
  rewrite length_map, length_seq in Hi', Hj'.
  rewrite !take_every_nth.
  assert (Hk : S (Pos.to_nat p - 1) = Pos.to_nat p) by lia.
  rewrite Hk in *. cbn [Nat.add] in *.
  rewrite !rev_nth
    by (rewrite length_map; unfold np.arange;
        rewrite length_map, length_seq; assumption).
  rewrite !length_map. unfold np.arange at 1 3.
  rewrite !length_map, !length_seq.
  rewrite !arange_nth by lia.
  rewrite !minus_INR, !S_INR, !mult_INR, !INR_IPR by lia.
  change (IZR (- Z.neg p)) with (IPR p).
  rewrite !INR_IZR_INZ, !Z2Nat.id by lia.
  split; unfold Rdiv; ring.
Qed.

Lemma negative_stride_flips_mesh_witness :
  exists dc : DepthCamera.t,
    np.item (DepthCamera.xs dc) [0; 1]%nat =
      (3 - 1 - IZR (- (-1)) * INR 1 - 0) / 500 /\
    np.item (DepthCamera.ys dc) [0; 1]%nat =
      (2 - 1 - IZR (- (-1)) * INR 0 - 0) / 500.
Proof.
  destruct (depth_camera_init_ok K_500_400 2 3 (-1) CameraIntrinsic.default_D)
    as (dc & Hdc & _); [discriminate |].
  exists dc.
  apply (negative_stride_flips_mesh K_500_400 2 3 (-1)
           CameraIntrinsic.default_D dc 2 3 0 1).
  - lia.
  - cbn. lra.
  - exact Hdc.
  - pose proof Hdc as Hdc'.
    cbn in Hdc'. injection Hdc' as <-. reflexivity.
  - lia.
  - lia.
Defined.

(** ** The essential matrix, continued *)

Ltac destruct_mat3 M :=
  let a := fresh M "00" in let b := fresh M "01" in let c := fresh M "02" in
  let d := fresh M "10" in let e := fresh M "11" in let f := fresh M "12" in
  let g := fresh M "20" in let h := fresh M "21" in let i := fresh M "22" in
  destruct M as [[[[a b] c] [[d e] f]] [[g h] i]].

Ltac destruct_vec3 v :=
  let a := fresh v "0" in let b := fresh v "1" in let c := fresh v "2" in
  destruct v as [[a b] c].

(** An equation between tuples, component by component. *)
Ltac split_pairs :=
  repeat match goal with
         | |- (_, _) = (_, _) => apply f_equal2
         end.

(** X11. The essential matrix carries the epipolar constraint from pixel
    to calibrated coordinates: for all vectors [x], [x'],
    [x'^T E x = (K x')^T F (K x)].  Transposing [F] transposes [E]. *)
Theorem essential_epipolar_constraint (F K : mat3) (x x' : vec3) :
  dot3 x' (mvmul3 (compute_essential F K) x) =
    dot3 (mvmul3 K x') (mvmul3 F (mvmul3 K x)) /\
  compute_essential (transpose3 F) K = transpose3 (compute_essential F K).
Proof.
  destruct_mat3 F. destruct_mat3 K. destruct_vec3 x. destruct_vec3 x'.
  cbv [compute_essential mmul3 transpose3 col3 mget get3 row3 dot3 mvmul3].
  split.
  - ring.
  - split_pairs; ring.
Qed.

(** X12. [det E = (det K)^2 det F]: the essential matrix of a singular
    fundamental matrix is singular. *)
Theorem essential_determinant (F K : mat3) :
  det3 (compute_essential F K) = det3 K * det3 K * det3 F /\
  (det3 F = 0 -> det3 (compute_essential F K) = 0).
Proof.
  assert (E : det3 (compute_essential F K) = det3 K * det3 K * det3 F).
  { destruct_mat3 F. destruct_mat3 K.
    cbv [compute_essential mmul3 transpose3 col3 mget get3 row3 dot3 det3].
    ring. }
  split; [exact E |].
  intros H0. rewrite E, H0. ring.
Qed.

Lemma essential_determinant_witness :
  det3 (compute_essential ((0, -1, 2), (1, 0, -1), (-2, 1, 0)) kinect_K_depth)
  = 0.
Proof.
  apply (proj2 (essential_determinant
                  ((0, -1, 2), (1, 0, -1), (-2, 1, 0)) kinect_K_depth)).
  cbv [det3]. ring.
Defined.

(** ** Epipoles *)

(** X13. Let the last row [e] of the third factor of the decomposition be
    a null vector of [F], as it is for a singular [F].  If [e[2] <> 0],
    [compute_epipole] returns the multiple of [e] whose third coordinate is
    1, and [F] sends it to zero; if [e[2] = 0] (an epipole at infinity) the
    result has no finite value. *)
Theorem epipole_is_normalised_null_vector
    (svd : mat3 -> mat3 * vec3 * mat3) (F U V : mat3) (s : vec3) :
  svd F = (U, s, V) ->
  mvmul3 F (row3 V I2) = zeros3 ->
  (get3 (row3 V I2) I2 <> 0 ->
   exists e : vec3,
     compute_epipole svd F = Some e /\
     get3 e I2 = 1 /\
     scale3 (get3 (row3 V I2) I2) e = row3 V I2 /\
     mvmul3 F e = zeros3)
  /\
  (get3 (row3 V I2) I2 = 0 -> compute_epipole svd F = None).
Proof.
  intros Hsvd Hnull.
  unfold compute_epipole. rewrite Hsvd.
  destruct (row3 V I2) as [[a b] c] eqn:Hrow. cbn [get3].
  split.
  - intros Hc. destruct (Req_dec_T c 0) as [E | _]; [contradiction |].
    eexists. split; [reflexivity |].
    destruct_mat3 F.
    cbv [mvmul3 dot3 zeros3] in Hnull. injection Hnull as N0 N1 N2.
    cbv [get3 scale3 mvmul3 dot3 zeros3].
    split; [field; exact Hc |].
    split.
    + split_pairs; field; exact Hc.
    + split_pairs.
      * replace 0 with ((F00 * a + F01 * b + F02 * c) / c)
          by (rewrite N0; field; exact Hc).
        field; exact Hc.
      * replace 0 with ((F10 * a + F11 * b + F12 * c) / c)
          by (rewrite N1; field; exact Hc).
        field; exact Hc.
      * replace 0 with ((F20 * a + F21 * b + F22 * c) / c)
          by (rewrite N2; field; exact Hc).
        field; exact Hc.
  - intros ->. destruct (Req_dec_T 0 0) as [_ | N]; [reflexivity | congruence].
Qed.

Lemma epipole_is_normalised_null_vector_witness :
  exists e : vec3,
    compute_epipole svd_diag110 diag110 = Some e /\
    get3 e I2 = 1 /\
    scale3 (get3 (row3 eye3 I2) I2) e = row3 eye3 I2 /\
    mvmul3 diag110 e = zeros3.
Proof.
  apply (proj1 (epipole_is_normalised_null_vector
                  svd_diag110 diag110 eye3 eye3 (1, 1, 0) eq_refl
                  ltac:(cbv [diag110 eye3 row3 mvmul3 dot3 zeros3];
                        split_pairs; ring))).
  cbn. lra.
Defined.

(** X14. The left epipole.  Called on [F.T], under the same conditions,
    [compute_epipole] returns a vector [e'] with [e'^T F x = 0] for every
    [x]. *)
Theorem left_epipole_annihilates_F
    (svd : mat3 -> mat3 * vec3 * mat3) (F U V : mat3) (s e' x : vec3) :
  svd (transpose3 F) = (U, s, V) ->
  mvmul3 (transpose3 F) (row3 V I2) = zeros3 ->
  compute_epipole svd (transpose3 F) = Some e' ->
  dot3 e' (mvmul3 F x) = 0.
Proof.
  intros Hsvd Hnull He.
  unfold compute_epipole in He. rewrite Hsvd in He.
  destruct (row3 V I2) as [[a b] c] eqn:Hrow.
  destruct (Req_dec_T c 0) as [E | Hc]; [discriminate |].
  injection He as <-.
  destruct_mat3 F. destruct_vec3 x.
  cbv [transpose3 col3 mget get3 row3 mvmul3 dot3 zeros3] in Hnull.
  injection Hnull as N0 N1 N2.
  cbv [mvmul3 dot3].
  replace (a / c * (F00 * x0 + F01 * x1 + F02 * x2) +
           b / c * (F10 * x0 + F11 * x1 + F12 * x2) +
           c / c * (F20 * x0 + F21 * x1 + F22 * x2))
    with ((x0 * (F00 * a + F10 * b + F20 * c) +
           x1 * (F01 * a + F11 * b + F21 * c) +
           x2 * (F02 * a + F12 * b + F22 * c)) / c)
    by (field; exact Hc).
  rewrite N0, N1, N2. field. exact Hc.
Qed.

Lemma left_epipole_annihilates_F_witness :
  dot3 (0 / 1, 0 / 1, 1 / 1) (mvmul3 diag110 (1, 2, 3)) = 0.
Proof.
  apply (left_epipole_annihilates_F svd_diag110 diag110 eye3 eye3 (1, 1, 0)).
  - reflexivity.
  - cbv [diag110 eye3 transpose3 col3 mget get3 row3 mvmul3 dot3 zeros3].
    split_pairs; ring.
  - cbv [compute_epipole svd_diag110 eye3 row3].
    destruct (Req_dec_T 1 0) as [E | _]; [lra | reflexivity].
Defined.

(** ** Visibility, continued *)

(** The angle to a point at signed distance [d] along a unit direction
    [l]: zero ahead, [PI] behind. *)
Lemma theta_along_axis (l tv : vec3) (d : R) :
  dot3 l l = 1 ->
  d <> 0 ->
  theta l (sub3 (add3 tv (scale3 d l)) tv) =
  Some (if Rlt_dec 0 d then 0 else PI).
Proof.
  intros Hl Hd.
  destruct_vec3 l. destruct_vec3 tv.
  cbv [dot3] in Hl.
  cbv [scale3 add3 sub3].
  replace (tv0 + d * l0 - tv0) with (d * l0) by ring.
  replace (tv1 + d * l1 - tv1) with (d * l1) by ring.
  replace (tv2 + d * l2 - tv2) with (d * l2) by ring.
  unfold theta, unit_row, np.norm. cbv [dot3].
  replace (d * l0 * (d * l0) + d * l1 * (d * l1) + d * l2 * (d * l2))
    with (Rsqr d) by (unfold Rsqr; nra).
  rewrite sqrt_Rsqr_abs.
  assert (Habs : Rabs d <> 0) by (apply Rabs_no_R0; exact Hd).
  destruct (Req_dec_T (Rabs d) 0) as [E | _]; [contradiction |].
  unfold np.arccos.
  destruct (Rlt_dec 0 d) as [Hpos | Hneg].
  - rewrite Rabs_right by lra.
    replace (l0 * (d * l0 / d) + l1 * (d * l1 / d) + l2 * (d * l2 / d))
      with 1 by (rewrite <- Hl; field; exact Hd).
    destruct (Rle_dec (-1) 1) as [_ | N]; [| lra].
    destruct (Rle_dec 1 1) as [_ | N]; [| lra].
    now rewrite acos_1.
  - rewrite Rabs_left by lra.
    replace (l0 * (d * l0 / - d) + l1 * (d * l1 / - d) + l2 * (d * l2 / - d))
      with (- (1)) by (rewrite <- Hl; field; exact Hd).
    destruct (Rle_dec (-1) (- (1))) as [_ | N]; [| lra].
    destruct (Rle_dec (- (1)) 1) as [_ | N]; [| lra].
    rewrite acos_opp, acos_1. f_equal. ring.
Qed.

Lemma theta_at_centre (l tv : vec3) : theta l (sub3 tv tv) = None.
Proof.
  destruct_vec3 tv. cbv [sub3]. unfold theta, unit_row, np.norm. cbv [dot3].
  replace ((tv0 - tv0) * (tv0 - tv0) + (tv1 - tv1) * (tv1 - tv1) +
           (tv2 - tv2) * (tv2 - tv2)) with 0 by ring.
  rewrite sqrt_0.
  destruct (Req_dec_T 0 0) as [_ | N]; [reflexivity | congruence].
Qed.

(** X15. [check_visibility] needs the principal point: without [cx] or
    [cy] it raises [TypeError], whatever the points.  With both set it
    returns one flag per point, in order, and the flag of a point at the
    camera centre itself is [False]. *)
Theorem check_visibility_mask (cam : Camera.t) (pts : list vec3) :
  (Camera.cx cam = None \/ Camera.cy cam = None ->
   check_visibility cam pts = Raise TypeError)
  /\
  (forall x y : R,
     Camera.cx cam = Some x -> Camera.cy cam = Some y ->
     exists mask : list bool,
       check_visibility cam pts = Ok mask /\
       length mask = length pts /\
       forall n : nat,
         nth_error pts n = Some (Camera.tvec cam) ->
         nth_error mask n = Some false).
Proof.
  unfold check_visibility, Camera.fov, CameraIntrinsic.fov, Camera.cx, Camera.cy.
  split.
  - intros [E | E]; rewrite E.
    + reflexivity.
    + destruct (CameraIntrinsic.cx _); reflexivity.
  - intros x y Hx Hy. rewrite Hx, Hy. cbn [num bind fst snd].
    eexists. split; [reflexivity |].
    split; [now rewrite !length_map |].
    intros n Hn.
    rewrite !nth_error_map, Hn. cbn [option_map].
    rewrite theta_at_centre. reflexivity.
Qed.

Lemma check_visibility_mask_witness :
  exists mask : list bool,
    check_visibility Camera.simulate [(1, 0, 1); (0, 0, 0)] = Ok mask /\
    length mask = 2%nat /\
    forall n : nat,
      nth_error [(1, 0, 1); (0, 0, 0)] n = Some (Camera.tvec Camera.simulate) ->
      nth_error mask n = Some false.
Proof.
  apply (proj2 (check_visibility_mask Camera.simulate [(1, 0, 1); (0, 0, 0)])
           320 240).
  - reflexivity.
  - reflexivity.
Defined.

Lemma max_fov_below_PI (a b : R) : Rmax (atan a * 2) (atan b * 2) < PI.
Proof.
  pose proof (atan_bound a). pose proof (atan_bound b).
  apply Rmax_lub_lt; lra.
Qed.

(** X16. A point straight behind the camera is never reported visible:
    for a unit viewing direction [l] (the third column of [R]) and any
    [d < 0], the flag of [tvec + d l] is [False]. *)
Theorem point_behind_is_not_visible (cam : Camera.t) (x y d : R) :
  Camera.cx cam = Some x -> Camera.cy cam = Some y ->
  Camera.fx cam <> 0 -> Camera.fy cam <> 0 ->
  dot3 (col3 (Camera.R cam) I2) (col3 (Camera.R cam) I2) = 1 ->
  d < 0 ->
  check_visibility cam
    [add3 (Camera.tvec cam) (scale3 d (col3 (Camera.R cam) I2))] = Ok [false].
Proof.
  intros Hx Hy _ _ Hl Hd.
  rewrite (check_visibility_threshold cam _ x y Hx Hy).
  rewrite theta_along_axis by (assumption || lra).
  destruct (Rlt_dec 0 d) as [N | _]; [lra |].
  cbn [nan_ltb]. rewrite Rltb_false; [reflexivity |].
  left. apply max_fov_below_PI.
Qed.

Lemma point_behind_is_not_visible_witness :
  check_visibility Camera.simulate
    [add3 (Camera.tvec Camera.simulate)
          (scale3 (-3) (col3 (Camera.R Camera.simulate) I2))] = Ok [false].
Proof.
  apply (point_behind_is_not_visible Camera.simulate 320 240 (-3)).
  - reflexivity.
  - reflexivity.
  - cbn. lra.
  - cbn. lra.
  - cbn. lra.
  - lra.
Defined.

(** ** The bounding box, continued *)

Lemma py_int_mono (x y : R) : x <= y -> (py_int x <= py_int y)%Z.
Proof.
  intros Hxy.
  destruct (Rle_dec 0 x) as [Hx | Hx].
  - apply py_int_mono_nonneg; assumption.
  - destruct (Rle_dec 0 y) as [Hy | Hy].
    + apply Z.le_trans with 0%Z.
      * apply (py_int_le x 0). lra.
      * apply py_int_nonneg. exact Hy.
    + unfold py_int.
      destruct (Rle_dec 0 x) as [N | _]; [contradiction |].
      destruct (Rle_dec 0 y) as [N | _]; [contradiction |].
      destruct (base_Int_part (- x)) as [_ Hlow].
      destruct (base_Int_part (- y)) as [Hup _].
      assert (H : (Int_part (- y) < Int_part (- x) + 1)%Z).
      { apply lt_IZR. rewrite plus_IZR. lra. }
      lia.
Qed.

Lemma py_int_below (x : R) (n : Z) : x < IZR n -> 0 <= x -> (py_int x < n)%Z.
Proof.
  intros Hx H0. unfold py_int.
  destruct (Rle_dec 0 x) as [_ | N]; [| contradiction].
  destruct (base_Int_part x) as [Hup _]. apply lt_IZR. lra.
Qed.

Lemma fold_left_Rmin_le (l : list R) :
  forall a : R,
    fold_left Rmin l a <= a /\
    forall x : R, In x l -> fold_left Rmin l a <= x.
Proof.
  induction l as [| y l IH]; intros a; cbn [fold_left].
  - split; [lra | intros x []].
  - destruct (IH (Rmin a y)) as [H1 H2]. split.
    + pose proof (Rmin_l a y). lra.
    + intros x [-> | Hx].
      * pose proof (Rmin_r a x). lra.
      * apply H2. exact Hx.
Qed.

Lemma fold_left_Rmax_ge (l : list R) :
  forall a : R,
    a <= fold_left Rmax l a /\
    forall x : R, In x l -> x <= fold_left Rmax l a.
Proof.
  induction l as [| y l IH]; intros a; cbn [fold_left].
  - split; [lra | intros x []].
  - destruct (IH (Rmax a y)) as [H1 H2]. split.
    + pose proof (Rmax_l a y). lra.
    + intros x [-> | Hx].
      * pose proof (Rmax_r a x). lra.
      * apply H2. exact Hx.
Qed.

Lemma amin_le (l : list R) (m x : R) : np.amin l = Ok m -> In x l -> m <= x.
Proof.
  destruct l as [| a l]; [discriminate |].
  cbn [np.amin]. intros E. injection E as <-.
  destruct (fold_left_Rmin_le l a) as [H1 H2].
  intros [<- | Hx]; [exact H1 | apply H2; exact Hx].
Qed.

Lemma amax_ge (l : list R) (m x : R) : np.amax l = Ok m -> In x l -> x <= m.
Proof.
  destruct l as [| a l]; [discriminate |].
  cbn [np.amax]. intros E. injection E as <-.
  destruct (fold_left_Rmax_ge l a) as [H1 H2].
  intros [<- | Hx]; [exact H1 | apply H2; exact Hx].
Qed.

Lemma valid_px_spec (W H : Z) (p : R * R) :
  valid_px W H p = true <-> in_image W H p.
Proof.
  unfold valid_px, in_image.
  rewrite !andb_true_iff, !Rleb_spec, !Rltb_spec. tauto.
Qed.

Lemma median_some_nonempty (l : list R) (m : R) :
  np.median l = Some m -> l <> [].
Proof. intros E ->. discriminate E. Qed.

(** Everything a returned box tells about the run that produced it. *)
Lemma bbox_found_inv
    (Rodrigues : mat3 -> vec3)
    (projectPoints : list vec3 -> vec3 -> vec3 -> mat3 -> list R -> list (R * R))
    (cam : Camera.t) (pts : list vec3)
    (subsample : Z) (scale min_height min_width : R)
    (out : list (Z * Z)) (box : Box) (depth : option R) :
  get_object_bbox Rodrigues projectPoints cam pts subsample scale
                  min_height min_width = Ok (Found out box depth) ->
  exists (sub : list vec3) (H W : Z) (umin umax vmin vmax : R),
    let P2 := Camera.project Rodrigues projectPoints cam sub in
    let x0 := py_int (Rmax 0 umin) in
    let x1 := py_int (Rmin (IZR (W - 1)) umax) in
    let y0 := py_int (Rmax 0 vmin) in
    let y1 := py_int (Rmin (IZR (H - 1)) vmax) in
    np.slice_step subsample pts = Ok sub /\
    shape_at cam 0 = Ok H /\ shape_at cam 1 = Ok W /\
    np.amin (map fst P2) = Ok umin /\ np.amax (map fst P2) = Ok umax /\
    np.amin (map snd P2) = Ok vmin /\ np.amax (map snd P2) = Ok vmax /\
    filter (valid_px W H) P2 <> [] /\
    out = map to_pixel (filter (valid_px W H) P2) /\
    depth = np.median (map (fun X => get3 X I2)
                           (RigidTransform.mul (Camera.extrinsic cam) sub)) /\
    nan_ltb depth (Some 0) = false /\
    Rleb min_height (IZR (y1 - y0)) = true /\
    Rleb min_width (IZR (x1 - x0)) = true /\
    box = (if Req_dec_T scale 1
           then {| left := x0; right := x1; top := y0; bottom := y1 |}
           else
             let w2 := (scale - 1) * IZR (x1 - x0) / 2 in
             let h2 := (scale - 1) * IZR (y1 - y0) / 2 in
             {| left := py_int (Rmax 0 (IZR x0 - w2));
                right := py_int (Rmin (IZR x1 + w2) (IZR (W - 1)));
                top := py_int (Rmax 0 (IZR y0 - h2));
                bottom := py_int (Rmin (IZR y1 + h2) (IZR (H - 1))) |}).
Proof.
  intros Hres. unfold get_object_bbox in Hres.
  destruct (np.slice_step subsample pts) as [sub | e] eqn:Hsub; [| discriminate].
  cbn [bind] in Hres.
  destruct (np.amin (map fst _)) as [umin | e] eqn:Humin; [| discriminate].
  cbn [bind] in Hres.
  destruct (shape_at cam 1) as [W | e] eqn:HW; [| discriminate].
  cbn [bind] in Hres.
  destruct (np.amax (map fst _)) as [umax | e] eqn:Humax; [| discriminate].
  cbn [bind] in Hres.
  destruct (np.amin (map snd _)) as [vmin | e] eqn:Hvmin; [| discriminate].
  cbn [bind] in Hres.
  destruct (shape_at cam 0) as [H | e] eqn:HH; [| discriminate].
  cbn [bind] in Hres.
  destruct (np.amax (map snd _)) as [vmax | e] eqn:Hvmax; [| discriminate].
  cbn [bind] in Hres.
  change (fun p : R * R =>
            (Rleb 0 (fst p) && Rltb (fst p) (IZR W)) &&
            (Rleb 0 (snd p) && Rltb (snd p) (IZR H)))
    with (valid_px W H) in Hres.
  match type of Hres with
  | (if ?c && ?h && ?w then _ else _) = _ =>
      destruct c eqn:Hc; [| discriminate];
      destruct h eqn:Hh; [| discriminate];
      destruct w eqn:Hw; [| discriminate]
  end.
  cbn [andb] in Hres.
  match type of Hres with
  | (if ?b then _ else _) = _ => destruct b eqn:Hd; [discriminate |]
  end.
  exists sub, H, W, umin, umax, vmin, vmax. cbv zeta.
  repeat (split; [first [reflexivity | assumption] |]).
  split.
  { apply andb_prop in Hc as [Hc _]. apply andb_prop in Hc as [Hc _].
    apply andb_prop in Hc as [Hc _].
    destruct (np.median (map fst _)) as [m |] eqn:Hm; [| discriminate Hc].
    apply median_some_nonempty in Hm.
    intros E. apply Hm. now rewrite E. }
  destruct (Req_dec_T scale 1) as [_ | _];
    injection Hres as <- <- <-; repeat split; assumption.
Qed.



Lemma to_pixel_inside (W H : Z) (p : R * R) :
  valid_px W H p = true ->
  (0 <= fst (to_pixel p) < W)%Z /\ (0 <= snd (to_pixel p) < H)%Z.
Proof.
  intros Hv. apply valid_px_spec in Hv. destruct Hv as [[Hx0 HxW] [Hy0 HyH]].
  unfold to_pixel. cbn [fst snd].
  repeat split;
    first [apply py_int_nonneg; assumption | apply py_int_below; assumption].
Qed.

Lemma shape_at_inj (cam : Camera.t) (H W H' W' : Z) (rest : list Z) :
  Camera.shape cam = Some (H :: W :: rest) ->
  shape_at cam 0 = Ok H' -> shape_at cam 1 = Ok W' ->
  H' = H /\ W' = W.
Proof.
  intros Hs E0 E1.
  rewrite (shape_at_height _ _ _ _ Hs) in E0.
  rewrite (shape_at_width _ _ _ _ Hs) in E1.
  split; congruence.
Qed.

(** X19. The points returned with a box are pixels of the image: there is
    at least one, and each has [0 <= u < W] and [0 <= v < H]. *)
Theorem bbox_points_inside_image
    (Rodrigues : mat3 -> vec3)
    (projectPoints : list vec3 -> vec3 -> vec3 -> mat3 -> list R -> list (R * R))
    (cam : Camera.t) (H W : Z) (rest : list Z) (pts : list vec3)
    (subsample : Z) (scale min_height min_width : R)
    (out : list (Z * Z)) (box : Box) (depth : option R) :
  Camera.shape cam = Some (H :: W :: rest) ->
  get_object_bbox Rodrigues projectPoints cam pts subsample scale
                  min_height min_width = Ok (Found out box depth) ->
  out <> [] /\
  Forall (fun q => (0 <= fst q < W)%Z /\ (0 <= snd q < H)%Z) out.
Proof.
  intros Hshape Hres.
  destruct (bbox_found_inv _ _ _ _ _ _ _ _ _ _ _ Hres)
    as (sub & H' & W' & umin & umax & vmin & vmax & Hinv).
  cbv zeta in Hinv.
  destruct Hinv as (_ & HH & HW & _ & _ & _ & _ & Hne & -> & _).
  destruct (shape_at_inj _ _ _ _ _ _ Hshape HH HW) as [-> ->].
  split.
  - apply map_nonempty. exact Hne.
  - apply Forall_map. apply Forall_forall. intros p Hp.
    apply filter_In in Hp as [_ Hv].
    apply to_pixel_inside. exact Hv.
Qed.

Lemma bbox_points_inside_image_witness :
  [(320, 240); (370, 290)]%Z <> [] /\
  Forall (fun q => (0 <= fst q < 640)%Z /\ (0 <= snd q < 480)%Z)
         [(320, 240); (370, 290)]%Z.
Proof.
  apply (bbox_points_inside_image no_Rodrigues pinhole_projectPoints vga_camera
           480 640 [3%Z] [(0, 0, 1); (1 / 10, 1 / 10, 1)] 1 2 10 10
           [(320, 240); (370, 290)]%Z
           {| left := 295; right := 395; top := 215; bottom := 315 |}
           (Some 1)).
  - reflexivity.
  - exact bbox_of_two_points.
Defined.

Lemma median_none_empty (l : list R) : np.median l = None -> l = [].
Proof.
  destruct l as [| x l]; [reflexivity |].
  unfold np.median. destruct (Nat.even _); discriminate.
Qed.

(** X20. The depth returned with a box is a number and is not negative,
    provided [projectPoints] returns one image point per input point. *)
Theorem bbox_depth_not_negative
    (Rodrigues : mat3 -> vec3)
    (projectPoints : list vec3 -> vec3 -> vec3 -> mat3 -> list R -> list (R * R))
    (cam : Camera.t) (pts : list vec3)
    (subsample : Z) (scale min_height min_width : R)
    (out : list (Z * Z)) (box : Box) (depth : option R) :
  (forall X r t K0 D0, length (projectPoints X r t K0 D0) = length X) ->
  get_object_bbox Rodrigues projectPoints cam pts subsample scale
                  min_height min_width = Ok (Found out box depth) ->
  exists d : R, depth = Some d /\ 0 <= d.
Proof.
  intros Hlen Hres.
  destruct (bbox_found_inv _ _ _ _ _ _ _ _ _ _ _ Hres)
    as (sub & H' & W' & umin & umax & vmin & vmax & Hinv).
  cbv zeta in Hinv.
  destruct Hinv as (_ & _ & _ & Humin & _ & _ & _ & _ & _ & Hdep & Hneg & _).
  destruct depth as [d |].
  - exists d. split; [reflexivity |].
    cbn [nan_ltb] in Hneg.
    destruct (Rle_dec 0 d) as [Hd | Hd]; [exact Hd |].
    rewrite Rltb_true in Hneg by lra. discriminate.
  - exfalso. symmetry in Hdep. apply median_none_empty in Hdep.
    apply map_eq_nil in Hdep. unfold RigidTransform.mul in Hdep.
    apply map_eq_nil in Hdep. subst sub.
    unfold Camera.project in Humin.
    destruct (RigidTransform.to_Rt _) as [R0 t0].
    specialize (Hlen [] (Rodrigues R0) t0 (Camera.K cam) (Camera.D cam)).
    apply length_zero_iff_nil in Hlen. rewrite Hlen in Humin.
    discriminate Humin.
Qed.

Lemma bbox_depth_not_negative_witness :
  exists d : R, Some 1 = Some d /\ 0 <= d.
Proof.
  apply (bbox_depth_not_negative no_Rodrigues pinhole_projectPoints vga_camera
           [(0, 0, 1); (1 / 10, 1 / 10, 1)] 1 2 10 10
           [(320, 240); (370, 290)]%Z
           {| left := 295; right := 395; top := 215; bottom := 315 |}
           (Some 1)).
  - intros X r t K0 D0. unfold pinhole_projectPoints. apply length_map.
  - exact bbox_of_two_points.
Defined.

(** Along one axis: a projection [x] inside the image, and between the
    extreme projections [lo] and [hi], truncates to a pixel between the
    clipped bounds, and between the bounds rescaled by a factor
    [scale >= 1]. *)
Lemma axis_contains (lo hi x : R) (n : Z) (scale : R) :
  let a0 := py_int (Rmax 0 lo) in
  let a1 := py_int (Rmin (IZR (n - 1)) hi) in
  let w := (scale - 1) * IZR (a1 - a0) / 2 in
  lo <= x <= hi -> 0 <= x < IZR n -> 1 <= scale ->
  (a0 <= py_int x <= a1)%Z /\
  (py_int (Rmax 0 (IZR a0 - w)) <= py_int x
     <= py_int (Rmin (IZR a1 + w) (IZR (n - 1))))%Z.
Proof.
  intros a0 a1 w [Hlo Hhi] [H0 Hn] Hs.
  assert (L : (a0 <= py_int x)%Z).
  { apply py_int_mono. apply Rmax_lub; assumption. }
  assert (Hx : (py_int x <= n - 1)%Z).
  { pose proof (py_int_below x n Hn H0). lia. }
  assert (U : (py_int x <= a1)%Z).
  { unfold a1. apply Rmin_case.
    - rewrite py_int_IZR. exact Hx.
    - apply py_int_mono. exact Hhi. }
  split; [lia |].
  assert (Ha0 : (0 <= a0)%Z) by (apply py_int_nonneg, Rmax_l).
  assert (Ha1 : (a1 <= n - 1)%Z) by (apply py_int_le, Rmin_l).
  assert (Hw : 0 <= w).
  { unfold w. assert (0 <= IZR (a1 - a0)) by (apply IZR_le; lia). nra. }
  apply IZR_le in Ha0, Ha1.
  split.
  - apply Z.le_trans with a0; [| exact L].
    rewrite <- (py_int_IZR a0) at 2. apply py_int_mono.
    apply Rmax_lub; lra.
  - apply Z.le_trans with a1; [exact U |].
    rewrite <- (py_int_IZR a1) at 1. apply py_int_mono.
    apply Rmin_glb; lra.
Qed.

(** X21. With [scale >= 1] the box contains every point returned with
    it. *)
Theorem bbox_contains_points
    (Rodrigues : mat3 -> vec3)
    (projectPoints : list vec3 -> vec3 -> vec3 -> mat3 -> list R -> list (R * R))
    (cam : Camera.t) (pts : list vec3)
    (subsample : Z) (scale min_height min_width : R)
    (out : list (Z * Z)) (box : Box) (depth : option R) :
  1 <= scale ->
  get_object_bbox Rodrigues projectPoints cam pts subsample scale
                  min_height min_width = Ok (Found out box depth) ->
  Forall (in_box box) out.
Proof.
  intros Hs Hres.
  destruct (bbox_found_inv _ _ _ _ _ _ _ _ _ _ _ Hres)
    as (sub & H & W & umin & umax & vmin & vmax & Hinv).
  cbv zeta in Hinv.
  destruct Hinv as (_ & _ & _ & Humin & Humax & Hvmin & Hvmax & _ & -> & _ & _
                    & _ & _ & ->).
  apply Forall_map. apply Forall_forall. intros p Hp.
  apply filter_In in Hp as [Hin Hv].
  apply valid_px_spec in Hv. destruct Hv as [Hx Hy].
  pose proof (amin_le _ _ _ Humin (in_map fst _ _ Hin)) as Hx1.
  pose proof (amax_ge _ _ _ Humax (in_map fst _ _ Hin)) as Hx2.
  pose proof (amin_le _ _ _ Hvmin (in_map snd _ _ Hin)) as Hy1.
  pose proof (amax_ge _ _ _ Hvmax (in_map snd _ _ Hin)) as Hy2.
  destruct (axis_contains umin umax (fst p) W scale (conj Hx1 Hx2) Hx Hs)
    as [Bx Bx'].
  destruct (axis_contains vmin vmax (snd p) H scale (conj Hy1 Hy2) Hy Hs)
    as [By By'].
  unfold in_box, to_pixel.
  destruct (Req_dec_T scale 1) as [_ | _]; cbn [left right top bottom fst snd];
    split; assumption.
Qed.

Lemma bbox_contains_points_witness :
  Forall (in_box {| left := 295; right := 395; top := 215; bottom := 315 |})
         [(320, 240); (370, 290)]%Z.
Proof.
  apply (bbox_contains_points no_Rodrigues pinhole_projectPoints vga_camera
           [(0, 0, 1); (1 / 10, 1 / 10, 1)] 1 2 10 10
           [(320, 240); (370, 290)]%Z
           {| left := 295; right := 395; top := 215; bottom := 315 |}
           (Some 1)).
  - lra.
  - exact bbox_of_two_points.
Defined.

(** Along one axis, the rescaled bounds as functions of the scale: at
    [scale = 1] they are the clipped bounds themselves, and a larger scale
    moves the lower bound down and the upper bound up. *)
Lemma axis_rescale_monotone (a0 a1 n : Z) (s s' : R) :
  (0 <= a0 <= a1)%Z -> (a1 <= n - 1)%Z -> s <= s' ->
  let lo := fun k : R =>
    py_int (Rmax 0 (IZR a0 - (k - 1) * IZR (a1 - a0) / 2)) in
  let hi := fun k : R =>
    py_int (Rmin (IZR a1 + (k - 1) * IZR (a1 - a0) / 2) (IZR (n - 1))) in
  lo 1 = a0 /\ hi 1 = a1 /\ (lo s' <= lo s)%Z /\ (hi s <= hi s')%Z.
Proof.
  intros [H0 H01] H1 Hs lo hi.
  assert (R0 : 0 <= IZR a0) by (apply IZR_le in H0; exact H0).
  assert (R1 : IZR a1 <= IZR (n - 1)) by (apply IZR_le; exact H1).
  assert (Rd : 0 <= IZR (a1 - a0)) by (apply IZR_le; lia).
  unfold lo, hi. repeat split.
  - replace (IZR a0 - (1 - 1) * IZR (a1 - a0) / 2) with (IZR a0) by lra.
    rewrite Rmax_right by exact R0. apply py_int_IZR.
  - replace (IZR a1 + (1 - 1) * IZR (a1 - a0) / 2) with (IZR a1) by lra.
    rewrite Rmin_left by exact R1. apply py_int_IZR.
  - apply py_int_mono. apply Rle_max_compat_l. nra.
  - apply py_int_mono. apply Rle_min_compat_r. nra.
Qed.

(** X22. The box grows with the scale.  With non-negative minimum sizes,
    if a call returns a box for the scale [s], the same call with a larger
    scale [s'] returns the same points and depth and a box that contains
    the first one. *)
Theorem bbox_grows_with_scale
    (Rodrigues : mat3 -> vec3)
    (projectPoints : list vec3 -> vec3 -> vec3 -> mat3 -> list R -> list (R * R))
    (cam : Camera.t) (pts : list vec3)
    (subsample : Z) (s s' min_height min_width : R)
    (out : list (Z * Z)) (box : Box) (depth : option R) :
  0 <= min_height -> 0 <= min_width -> s <= s' ->
  get_object_bbox Rodrigues projectPoints cam pts subsample s
                  min_height min_width = Ok (Found out box depth) ->
  exists box' : Box,
    get_object_bbox Rodrigues projectPoints cam pts subsample s'
                    min_height min_width = Ok (Found out box' depth) /\
    (left box' <= left box)%Z /\ (right box <= right box')%Z /\
    (top box' <= top box)%Z /\ (bottom box <= bottom box')%Z.
Proof.
  intros Hmh Hmw Hs Hres.
  destruct (bbox_found_inv _ _ _ _ _ _ _ _ _ _ _ Hres)
    as (sub & H & W & umin & umax & vmin & vmax & Hinv).
  cbv zeta in Hinv.
  destruct Hinv as (Hsub & HH & HW & Humin & Humax & Hvmin & Hvmax & Hne & Hout
                    & Hdep & Hneg & Hh & Hw & Hbox).
  clear Hne.
  (* the second run goes through the same steps *)
  unfold get_object_bbox in Hres |- *.
  rewrite Hsub in Hres |- *. cbn [bind] in Hres |- *.
  rewrite Humin, HW, Humax, Hvmin, HH, Hvmax in Hres |- *.
  cbn [bind] in Hres |- *.
  rewrite Hh, Hw in Hres |- *.
  match type of Hres with
  | (if ?c && true && true then _ else _) = _ =>
      destruct c; [| discriminate]
  end.
  cbn [andb] in Hres |- *.
  rewrite <- Hdep in Hres |- *. rewrite Hneg in Hres |- *.
  clear Hres.
  (* bounds along the two axes *)
  destruct (axis_bounds umin umax W 1 min_width ltac:(lra) Hmw Hw) as [[Bx0 Bx1] _].
  destruct (axis_bounds vmin vmax H 1 min_height ltac:(lra) Hmh Hh) as [[By0 By1] _].
  destruct (axis_rescale_monotone _ _ W s s' Bx0 Bx1 Hs) as (Lx & Ux & Mx0 & Mx1).
  destruct (axis_rescale_monotone _ _ H s s' By0 By1 Hs) as (Ly & Uy & My0 & My1).
  cbv beta in Lx, Ux, Mx0, Mx1, Ly, Uy, My0, My1.
  change (fun p : R * R =>
            (Rleb 0 (fst p) && Rltb (fst p) (IZR W)) &&
            (Rleb 0 (snd p) && Rltb (snd p) (IZR H)))
    with (valid_px W H).
  change (fun p : R * R => (py_int (fst p), py_int (snd p))) with to_pixel.
  rewrite <- Hout. subst box.
  destruct (Req_dec_T s 1) as [Es | Ns]; destruct (Req_dec_T s' 1) as [Es' | Ns'];
    eexists; (split; [reflexivity |]); cbn [left right top bottom];
    try subst s; try subst s';
    rewrite ?Lx, ?Ux, ?Ly, ?Uy in *; repeat split; assumption || lia.
Qed.

Lemma bbox_grows_with_scale_witness :
  exists box' : Box,
    get_object_bbox no_Rodrigues pinhole_projectPoints vga_camera
                    [(0, 0, 1); (1 / 10, 1 / 10, 1)] 1 3 10 10
      = Ok (Found [(320, 240); (370, 290)]%Z box' (Some 1)) /\
    (left box' <= 295)%Z /\ (395 <= right box')%Z /\
    (top box' <= 215)%Z /\ (315 <= bottom box')%Z.
Proof.
  apply (bbox_grows_with_scale no_Rodrigues pinhole_projectPoints vga_camera
           [(0, 0, 1); (1 / 10, 1 / 10, 1)] 1 2 3 10 10
           [(320, 240); (370, 290)]%Z
           {| left := 295; right := 395; top := 215; bottom := 315 |}
           (Some 1)).
  - lra.
  - lra.
  - lra.
  - exact bbox_of_two_points.
Defined.

(** ** The centre and the optical axis *)

(** X23. For a camera built from [construct_K fx fy cx cy] at any pose,
    [center()] is the image of the optical axis: every world point whose
    camera-frame coordinates are [(0, 0, z)] with [z <> 0] is projected by
    [P] onto the pair that [center()] returns. *)
Theorem center_is_image_of_optical_axis
    (fx0 fy0 cx0 cy0 : R) (R0 : mat3) (t0 : vec3) (D0 : list R)
    (shape0 : option (list Z)) (X : vec3) (z : R) :
  add3 (mvmul3 R0 X) t0 = (0, 0, z) ->
  z <> 0 ->
  let cam := Camera.init (construct_K fx0 fy0 cx0 cy0) R0 t0 D0 shape0 in
  Camera.center cam = Ok (cx0, Some cy0) /\
  projects_to (Camera.P cam) X (cx0, cy0).
Proof.
  intros Hframe Hz cam. split; [reflexivity |].
  unfold projects_to, cam. rewrite P_apply, R_of_init.
  change (Camera.tvec (Camera.init (construct_K fx0 fy0 cx0 cy0) R0 t0 D0 shape0))
    with t0.
  rewrite Hframe.
  cbv [Camera.K Camera.init Camera.intrinsic CameraIntrinsic.init
       CameraIntrinsic.K construct_K mvmul3 dot3 fst snd].
  repeat split.
  - intros E. apply Hz. lra.
  - field. lra.
  - field. lra.
Qed.

Lemma center_is_image_of_optical_axis_witness :
  let cam := Camera.init (construct_K 500 500 320 240) eye3 (1, 2, 3)
                         CameraIntrinsic.default_D None in
  Camera.center cam = Ok (320, Some 240) /\
  projects_to (Camera.P cam) (-1, -2, 4) (320, 240).
Proof.
  apply (center_is_image_of_optical_axis 500 500 320 240 eye3 (1, 2, 3)
           CameraIntrinsic.default_D None (-1, -2, 4) 7).
  - cbv [eye3 mvmul3 dot3 add3]. split_pairs; lra.
  - lra.
Defined.

(** ** Strided meshes *)

(** The two grids of a mesh built with a positive stride. *)
Lemma mesh_entries
    (K0 : mat3) (H W skip0 : Z) (D0 : list R)
    (dc : DepthCamera.t) (rows cols i j : nat) :
  (0 < skip0)%Z ->
  DepthCamera.init K0 [H; W] skip0 D0 = Ok dc ->
  np.shape (DepthCamera.xs dc) = [rows; cols] ->
  (i < rows)%nat -> (j < cols)%nat ->
  (i * Z.to_nat skip0 < Z.to_nat H)%nat /\
  (j * Z.to_nat skip0 < Z.to_nat W)%nat /\
  np.item (DepthCamera.xs dc) [i; j] =
    (INR (j * Z.to_nat skip0) - mget K0 I0 I2) * (1 / mget K0 I0 I0) /\
  np.item (DepthCamera.ys dc) [i; j] =
    (INR (i * Z.to_nat skip0) - mget K0 I1 I2) * (1 / mget K0 I0 I0).
Proof.
  intros Hskip Hinit Hshape Hi Hj.
  destruct skip0 as [| p | p]; try lia.
  unfold DepthCamera.init, DepthCamera._build_mesh in Hinit.
  cbn in Hinit. injection Hinit as <-.
  cbn in Hshape. injection Hshape as <- <-.
  cbn [DepthCamera.xs DepthCamera.ys np.meshgrid fst snd np.item].
  pose proof (take_every_index _ _ _ _ Hi) as Hi'.
  pose proof (take_every_index _ _ _ _ Hj) as Hj'.
  rewrite length_map in Hi', Hj'. unfold np.arange in Hi', Hj'.
  rewrite length_map, length_seq in Hi', Hj'.
  rewrite !take_every_nth.
  assert (Hk : S (Pos.to_nat p - 1) = Pos.to_nat p) by lia.
  rewrite Hk in *. cbn [Nat.add Z.to_nat] in *.
  rewrite !arange_nth by assumption.
  repeat split; assumption.
Qed.

(** X25. Striding commutes with building the mesh: entry [(i, j)] of the
    mesh built with stride [s > 0] is entry [(s i, s j)] of the mesh built
    with stride 1 over the same image, and that entry exists. *)
Theorem strided_mesh_is_subgrid
    (K0 : mat3) (H W skip0 : Z) (D0 : list R)
    (dc dc1 : DepthCamera.t) (rows cols i j : nat) :
  (0 < skip0)%Z ->
  DepthCamera.init K0 [H; W] skip0 D0 = Ok dc ->
  DepthCamera.init K0 [H; W] 1 D0 = Ok dc1 ->
  np.shape (DepthCamera.xs dc) = [rows; cols] ->
  (i < rows)%nat -> (j < cols)%nat ->
  let i1 := (i * Z.to_nat skip0)%nat in
  let j1 := (j * Z.to_nat skip0)%nat in
  np.shape (DepthCamera.xs dc1) = [Z.to_nat H; Z.to_nat W] /\
  (i1 < Z.to_nat H)%nat /\ (j1 < Z.to_nat W)%nat /\
  np.item (DepthCamera.xs dc) [i; j] = np.item (DepthCamera.xs dc1) [i1; j1] /\
  np.item (DepthCamera.ys dc) [i; j] = np.item (DepthCamera.ys dc1) [i1; j1].
Proof.
  intros Hs Hdc Hdc1 Hshape Hi Hj i1 j1.
  destruct (mesh_entries K0 H W skip0 D0 dc rows cols i j Hs Hdc Hshape Hi Hj)
    as (Hi1 & Hj1 & Ex & Ey).
  assert (Hshape1 : np.shape (DepthCamera.xs dc1) = [Z.to_nat H; Z.to_nat W]).
  { pose proof Hdc1 as Hinit.
    unfold DepthCamera.init, DepthCamera._build_mesh in Hinit.
    cbn in Hinit. injection Hinit as <-.
    cbn [DepthCamera.xs np.meshgrid fst np.shape].
    rewrite !take_every_length, !length_map. unfold np.arange.
    rewrite !length_map, !length_seq.
    change (Pos.to_nat 1 - 1)%nat with 0%nat.
    rewrite !Nat.add_0_r, !Nat.sub_0_r, !Nat.div_1_r. reflexivity. }
  destruct (mesh_entries K0 H W 1 D0 dc1 _ _ i1 j1 ltac:(lia) Hdc1 Hshape1
              Hi1 Hj1) as (_ & _ & Ex1 & Ey1).
  change (Z.to_nat 1) with 1%nat in Ex1, Ey1. rewrite !Nat.mul_1_r in Ex1, Ey1.
  rewrite Ex, Ey, Ex1, Ey1. subst i1 j1.
  repeat split; assumption.
Qed.

Lemma strided_mesh_is_subgrid_witness :
  exists dc dc1 : DepthCamera.t,
    np.shape (DepthCamera.xs dc1) = [Z.to_nat 4; Z.to_nat 6] /\
    (1 * Z.to_nat 2 < Z.to_nat 4)%nat /\ (2 * Z.to_nat 2 < Z.to_nat 6)%nat /\
    np.item (DepthCamera.xs dc) [1; 2]%nat =
      np.item (DepthCamera.xs dc1) [1 * Z.to_nat 2; 2 * Z.to_nat 2]%nat /\
    np.item (DepthCamera.ys dc) [1; 2]%nat =
      np.item (DepthCamera.ys dc1) [1 * Z.to_nat 2; 2 * Z.to_nat 2]%nat.
Proof.
  destruct (depth_camera_init_ok K_500_400 4 6 2 CameraIntrinsic.default_D)
    as (dc & Hdc & _); [discriminate |].
  destruct (depth_camera_init_ok K_500_400 4 6 1 CameraIntrinsic.default_D)
    as (dc1 & Hdc1 & _); [discriminate |].
  exists dc, dc1.
  apply (strided_mesh_is_subgrid K_500_400 4 6 2 CameraIntrinsic.default_D
           dc dc1 2 3 1 2).
  - lia.
  - exact Hdc.
  - exact Hdc1.
  - pose proof Hdc as Hdc'. cbn in Hdc'. injection Hdc' as <-. reflexivity.
  - lia.
  - lia.
Defined.
